(** * zero_monitor: the remote metric collector of [monitor.py]

    A shallow embedding of [RemoteMonitor.get_metrics],
    [load_hosts_from_json] and the poll loop of [main], together with the
    Python built-ins they rely on ([str.split], [str.splitlines],
    [str.strip], [str.startswith], [float], [re.search], [repr]).

    Conventions of the embedding:
    - a Python [str] holding command output is a [text], a list of code
      points below 256 (one [ascii] each); dictionary keys and the strings
      of the JSON configuration are [string]s;
    - a Python [float] is a binary64 primitive [float];
    - raising is explicit: fallible code returns a [result];
    - the SSH client, [print] and [time.sleep] are effects on a [world]
      that records every event in order. *)

From Stdlib Require Import ZArith NArith Ascii String List Bool Lia.
From Stdlib Require Import PrimFloat SpecFloat FloatOps.
From stdpp Require Import gmap strings list.

Set Warnings "-inexact-float,-register-all,-clear-no-such-hyp".
Local Open Scope Z_scope.

(** ** Text and character classes *)

Definition text := list ascii.

(** The literal [txt "abc"] is the text of the string ["abc"]. *)
Definition txt (s : string) : text := list_ascii_of_string s.

Definition code (c : ascii) : N := N_of_ascii c.

Definition in_range (lo hi : N) (c : ascii) : bool :=
  ((lo <=? code c)%N && (code c <=? hi)%N)%bool.

(** [Py_UNICODE_ISSPACE] on code points below 256: used by [str.split],
    [str.strip] and the [\s] class of [re]. *)
Definition is_space (c : ascii) : bool :=
  (in_range 9 13 c || in_range 28 32 c
   || (code c =? 133)%N || (code c =? 160)%N)%bool.

(** [Py_UNICODE_ISLINEBREAK] on code points below 256: used by
    [str.splitlines]. *)
Definition is_linebreak (c : ascii) : bool :=
  (in_range 10 13 c || in_range 28 30 c || (code c =? 133)%N)%bool.

(** Decimal digits ([\d] of [re], and the digits [float] accepts); below
    256 these are ['0'] to ['9'] only. *)
Definition is_digit (c : ascii) : bool := in_range 48 57 c.

(** The whitespace [float] strips: [Py_ISSPACE] after the non-ASCII spaces
    were mapped to [' ']. The separators 28 to 31 are not among them. *)
Definition is_float_space (c : ascii) : bool :=
  (in_range 9 13 c || (code c =? 32)%N
   || (code c =? 133)%N || (code c =? 160)%N)%bool.

Definition digit_val (c : ascii) : Z := Z.of_N (code c) - 48.

Definition ascii_eqb (a b : ascii) : bool := (code a =? code b)%N.

(** ASCII lower-casing, for the case-insensitive spellings of [float]. *)
Definition to_lower (c : ascii) : ascii :=
  if in_range 65 90 c then ascii_of_N (code c + 32) else c.

(** ** List helpers *)

Section Span.
Context {A : Type} (p : A -> bool).

(** Longest prefix whose elements satisfy [p], and the rest. *)
Fixpoint span (l : list A) : list A * list A :=
  match l with
  | [] => ([], [])
  | x :: l' =>
      if p x then let '(a, b) := span l' in (x :: a, b)
      else ([], l)
  end.

Fixpoint drop_while (l : list A) : list A :=
  match l with
  | [] => []
  | x :: l' => if p x then drop_while l' else l
  end.

Definition all_b (l : list A) : bool := forallb p l.
End Span.

Fixpoint text_eqb (a b : text) : bool :=
  match a, b with
  | [], [] => true
  | x :: a', y :: b' => ascii_eqb x y && text_eqb a' b'
  | _, _ => false
  end.

(** ** [str] methods *)

(** [s.startswith(p)] *)
Fixpoint startswith (s p : text) : bool :=
  match p, s with
  | [], _ => true
  | y :: p', x :: s' => ascii_eqb x y && startswith s' p'
  | _ :: _, [] => false
  end.

(** [s.strip()] *)
Definition strip_with (sp : ascii -> bool) (s : text) : text :=
  rev (drop_while sp (rev (drop_while sp s))).

Definition strip (s : text) : text := strip_with is_space s.

(** [s.split()]: the maximal runs of non-whitespace, in order. [cur] is the
    run being read. *)
Fixpoint split_from (cur s : text) : list text :=
  match s with
  | [] => match cur with [] => [] | _ => [cur] end
  | c :: s' =>
      if is_space c then
        match cur with
        | [] => split_from [] s'
        | _ => cur :: split_from [] s'
        end
      else split_from (cur ++ [c]) s'
  end.

Definition split (s : text) : list text := split_from [] s.

(** [s.splitlines()]: a line ends at a line break, ["\r\n"] counts as one
    break, and no empty line follows a final break. *)
Fixpoint splitlines_from (cur s : text) : list text :=
  match s with
  | [] => match cur with [] => [] | _ => [cur] end
  | c :: s' =>
      if is_linebreak c then
        match s' with
        | c2 :: s'' =>
            if ((code c =? 13)%N && (code c2 =? 10)%N)%bool
            then cur :: splitlines_from [] s''
            else cur :: splitlines_from [] s'
        | [] => cur :: splitlines_from [] s'
        end
      else splitlines_from (cur ++ [c]) s'
  end.

Definition splitlines (s : text) : list text := splitlines_from [] s.

(** ** Exceptions *)

(** The exceptions that matter to [get_metrics]: the two the parser can
    raise, any other subclass of [Exception] (what paramiko and the socket
    layer raise), and exceptions outside [Exception] ([KeyboardInterrupt],
    [SystemExit]). Each carries its [str(e)]. *)
Inductive exn :=
| ValueError (msg : text)
| IndexError (msg : text)
| TypeError (msg : text)
| OtherException (name : string) (msg : text)
| BaseOnly (name : string) (msg : text).

Definition is_Exception (e : exn) : bool :=
  match e with BaseOnly _ _ => false | _ => true end.

Definition str_of_exn (e : exn) : text :=
  match e with
  | ValueError m | IndexError m | TypeError m => m
  | OtherException _ m | BaseOnly _ m => m
  end.

Inductive result (A : Type) :=
| Ok (a : A)
| Raise (e : exn).
Arguments Ok {A} a.
Arguments Raise {A} e.

Definition rbind {A B} (r : result A) (k : A -> result B) : result B :=
  match r with Ok a => k a | Raise e => Raise e end.

Declare Scope result_scope.
Delimit Scope result_scope with result.
Notation "x <- r ;; k" := (rbind r (fun x => k))
  (at level 100, r at next level, right associativity) : result_scope.

(** [l[i]] on a list: [IndexError] out of range. *)
Definition index {A} (l : list A) (i : nat) : result A :=
  match l !! i with
  | Some x => Ok x
  | None => Raise (IndexError (txt "list index out of range"))
  end.

(** ** [repr] of a [str] *)

Definition hex_digit (n : N) : ascii :=
  nth (N.to_nat n) (txt "0123456789abcdef") "0"%char.

(** Code points below 256 that [repr] writes as [\xhh]: the controls, DEL,
    128 to 160, and the soft hyphen 173. *)
Definition is_printable (c : ascii) : bool :=
  negb (in_range 0 31 c || in_range 127 160 c || (code c =? 173)%N).

Definition repr_char (quote c : ascii) : text :=
  if (ascii_eqb c quote || ascii_eqb c "\"%char)%bool then ["\"%char; c]
  else if (code c =? 9)%N then txt "\t"
  else if (code c =? 10)%N then txt "\n"
  else if (code c =? 13)%N then txt "\r"
  else if is_printable c then [c]
  else txt "\x" ++ [hex_digit (code c / 16); hex_digit (code c mod 16)].

(** Single quotes, unless the text has a single quote and no double one. *)
Definition repr_quote (s : text) : ascii :=
  if (existsb (ascii_eqb "'"%char) s
      && negb (existsb (ascii_eqb "034"%char) s))%bool
  then "034"%char else "'"%char.

Definition repr (s : text) : text :=
  let q := repr_quote s in
  [q] ++ concat (map (repr_char q) s) ++ [q].

(** ** [float(s)] for a [str] argument *)

(** The binary64 nearest to [(-1)^neg * m * 10^e], ties to even, overflow
    to infinity: what the correctly rounded [strtod] under [float] computes
    for a decimal numeral. *)
Definition float_of_decimal (neg : bool) (m e : Z) : float :=
  match m with
  | Zpos p =>
      SF2Prim
        (if 0 <=? e
         then SFdiv prec emax (S754_finite neg (p * Z.to_pos (10 ^ e)) 0)
                              (S754_finite false 1 0)
         else SFdiv prec emax (S754_finite neg p 0)
                              (S754_finite false (Z.to_pos (10 ^ (- e))) 0))
  | _ => if neg then neg_zero else zero
  end.

Definition digits_val (ds : text) : Z :=
  fold_left (fun acc c => 10 * acc + digit_val c) ds 0.

Definition take_sign (s : text) : bool * text :=
  match s with
  | c :: s' =>
      if ascii_eqb c "-"%char then (true, s')
      else if ascii_eqb c "+"%char then (false, s')
      else (false, s)
  | [] => (false, [])
  end.

(** Underscores may only stand between two digits; they are removed before
    the numeral is read. [prev] is the character before [s]. *)
Fixpoint drop_underscores (prev : ascii) (s : text) : option text :=
  match s with
  | [] => if ascii_eqb prev "_"%char then None else Some []
  | c :: s' =>
      if ascii_eqb c "_"%char then
        if is_digit prev then drop_underscores c s' else None
      else if (ascii_eqb prev "_"%char && negb (is_digit c))%bool then None
      else option_map (cons c) (drop_underscores c s')
  end.

(** Optional sign, then [inf], [infinity] or [nan] in any case. *)
Definition parse_inf_or_nan (s : text) : option float :=
  let '(neg, r) := take_sign s in
  let l := map to_lower r in
  if (text_eqb l (txt "inf") || text_eqb l (txt "infinity"))%bool
  then Some (if neg then neg_infinity else infinity)
  else if text_eqb l (txt "nan") then Some nan
  else None.

(** Optional sign, digits with an optional point (at least one digit),
    and an optional exponent ([e] or [E], optional sign, at least one
    digit); nothing may follow. *)
Definition parse_decimal (s : text) : option float :=
  let '(neg, r) := take_sign s in
  let '(ip, r1) := span is_digit r in
  let '(fp, r2) :=
    match r1 with
    | c :: r' => if ascii_eqb c "."%char then span is_digit r' else ([], r1)
    | [] => ([], [])
    end in
  let mant := digits_val (ip ++ fp) in
  let scale := Z.of_nat (length fp) in
  match ip ++ fp with
  | [] => None
  | _ :: _ =>
      match r2 with
      | [] => Some (float_of_decimal neg mant (- scale))
      | c :: r3 =>
          if ascii_eqb (to_lower c) "e"%char then
            let '(eneg, r4) := take_sign r3 in
            let '(ed, r5) := span is_digit r4 in
            match ed, r5 with
            | _ :: _, [] =>
                let ev := digits_val ed in
                Some (float_of_decimal neg mant
                        ((if eneg then - ev else ev) - scale))
            | _, _ => None
            end
          else None
      end
  end.

Definition float_syntax (s : text) : option float :=
  let t := strip_with is_float_space s in
  match (if existsb (ascii_eqb "_"%char) t
         then drop_underscores "000"%char t else Some t) with
  | None => None
  | Some u =>
      match parse_inf_or_nan u with
      | Some x => Some x
      | None => parse_decimal u
      end
  end.

(** [float(s)]: the value, or [ValueError]. *)
Definition py_float (s : text) : result float :=
  match float_syntax s with
  | Some x => Ok x
  | None =>
      Raise (ValueError (txt "could not convert string to float: " ++ repr s))
  end.

(** ** [re.search(r"\s+(\d+)%\s+/", s)] *)

(** The pattern tried at the start of [s]; the result is group 1. The
    three character classes and the two literals exclude one another, so
    each greedy repetition has a single way to stop and no backtracking
    into it can succeed ([match_disk_at_spec] below relates this to the
    language of the pattern). *)
Definition match_disk_at (s : text) : option text :=
  let '(ws, r1) := span is_space s in
  let '(ds, r2) := span is_digit r1 in
  match ws, ds, r2 with
  | _ :: _, _ :: _, c :: r3 =>
      if ascii_eqb c "%"%char then
        let '(ws2, r4) := span is_space r3 in
        match ws2, r4 with
        | _ :: _, c2 :: _ => if ascii_eqb c2 "/"%char then Some ds else None
        | _, _ => None
        end
      else None
  | _, _, _ => None
  end.

(** [re.search]: the match at the leftmost position that has one. *)
Fixpoint re_search_disk (s : text) : option text :=
  match match_disk_at s with
  | Some g => Some g
  | None =>
      match s with
      | [] => None
      | _ :: s' => re_search_disk s'
      end
  end.

(** ** The metrics dictionary *)

Inductive pyval :=
| VNone
| VFloat (x : float)
| VStr (s : text).

Abbreviation dict := (gmap string pyval).

Definition metric_keys : list string :=
  ["disk_root_used_pct"; "mem_total_mb"; "mem_free_mb";
   "cpu_load_1m"; "cpu_load_5m"; "cpu_load_15m"; "temperature_c"]%string.

(** ** The parsing part of [get_metrics] (lines 51 to 85) *)

Section Parser.
Local Open Scope result_scope.
Local Open Scope string_scope.

(** Lines 52 to 56: disk usage of the root mount. *)
Definition parse_disk (df_out : text) (metrics : dict) : result dict :=
  match re_search_disk df_out with
  | Some g =>
      x <- py_float g ;;
      Ok (<["disk_root_used_pct" := VFloat x]> metrics)
  | None => Ok (<["disk_root_used_pct" := VNone]> metrics)
  end.

(** Lines 61 to 63: the body of the loop for a line starting ["Mem:"]. *)
Definition parse_mem_line (line : text) (metrics : dict) : result dict :=
  let parts := split line in
  p1 <- index parts 1 ;;
  total <- py_float p1 ;;
  let metrics := <["mem_total_mb" := VFloat total]> metrics in
  free <- (if (7 <=? length parts)%nat
           then p6 <- index parts 6 ;; py_float p6
           else p3 <- index parts 3 ;; py_float p3) ;;
  Ok (<["mem_free_mb" := VFloat free]> metrics).

(** Lines 59 to 67: the [for ... else] over the lines, left by [break]
    at the first line that starts with ["Mem:"]. *)
Fixpoint parse_memory_lines (lines : list text) (metrics : dict)
  : result dict :=
  match lines with
  | [] =>
      Ok (<["mem_free_mb" := VNone]> (<["mem_total_mb" := VNone]> metrics))
  | line :: rest =>
      if startswith line (txt "Mem:") then parse_mem_line line metrics
      else parse_memory_lines rest metrics
  end.

Definition parse_memory (free_out : text) (metrics : dict) : result dict :=
  parse_memory_lines (splitlines free_out) metrics.

(** Lines 70 to 76: load averages. *)
Definition parse_load (loadavg_out : text) (metrics : dict) : result dict :=
  let parts := split loadavg_out in
  if (3 <=? length parts)%nat then
    p0 <- index parts 0 ;;
    l1 <- py_float p0 ;;
    let metrics := <["cpu_load_1m" := VFloat l1]> metrics in
    p1 <- index parts 1 ;;
    l5 <- py_float p1 ;;
    let metrics := <["cpu_load_5m" := VFloat l5]> metrics in
    p2 <- index parts 2 ;;
    l15 <- py_float p2 ;;
    Ok (<["cpu_load_15m" := VFloat l15]> metrics)
  else
    Ok (<["cpu_load_1m" := VNone]>
          (<["cpu_load_5m" := VNone]>
             (<["cpu_load_15m" := VNone]> metrics))).

(** Lines 79 to 83: the inner [try] with its
    [except (ValueError, TypeError)]. *)
Definition parse_temperature (temp_raw : text) (metrics : dict)
  : result dict :=
  match py_float temp_raw with
  | Ok x =>
      let temp_c := (x / 1000)%float in
      Ok (<["temperature_c" := VFloat temp_c]> metrics)
  | Raise (ValueError _) | Raise (TypeError _) =>
      Ok (<["temperature_c" := VNone]> metrics)
  | Raise e => Raise e
  end.

(** Lines 51 to 85 on the four texts read from the host, starting from
    the empty [metrics] of line 32. *)
Definition parse_metrics (df_out free_out loadavg_out temp_raw : text)
  : result dict :=
  metrics <- parse_disk df_out ∅ ;;
  metrics <- parse_memory free_out metrics ;;
  metrics <- parse_load loadavg_out metrics ;;
  metrics <- parse_temperature temp_raw metrics ;;
  Ok metrics.
End Parser.

(** ** JSON values and host descriptors *)

(** What [json.load] returns. *)
Inductive json :=
| JNull
| JBool (b : bool)
| JInt (n : Z)
| JFloat (x : float)
| JStr (s : string)
| JList (l : list json)
| JDict (d : gmap string json).

(** Python truth value of a JSON value (the test of [if hostname and
    username] and of [label or hostname]). *)
Definition truthy (v : json) : bool :=
  match v with
  | JNull => false
  | JBool b => b
  | JInt n => negb (n =? 0)
  | JFloat x => negb (PrimFloat.eqb x 0)
  | JStr s => negb (String.eqb s "")
  | JList l => negb (Nat.eqb (length l) 0)
  | JDict d => negb (Nat.eqb (size d) 0)
  end.

Definition type_name (v : json) : string :=
  match v with
  | JNull => "NoneType"
  | JBool _ => "bool"
  | JInt _ => "int"
  | JFloat _ => "float"
  | JStr _ => "str"
  | JList _ => "list"
  | JDict _ => "dict"
  end.

(** [h.get(key, default)]: only a dict has the method. *)
Definition get_default (h : json) (key : string) (default : json)
  : result json :=
  match h with
  | JDict d => Ok (match d !! key with Some v => v | None => default end)
  | _ =>
      Raise (OtherException "AttributeError"
               (txt "'" ++ txt (type_name h)
                ++ txt "' object has no attribute 'get'"))
  end.

(** [h.get(key)] *)
Definition get (h : json) (key : string) : result json :=
  get_default h key JNull.

(** The attributes [__init__] stores (lines 10 to 15). *)
Record RemoteMonitor := {
  hostname : json;
  username : json;
  key_filename : json;
  password : json;
  port : json;
  label : json
}.

(** [RemoteMonitor(hostname=..., ...)]: [label or hostname] on line 15. *)
Definition init (hostname username key_filename password port label : json)
  : RemoteMonitor :=
  {| hostname := hostname; username := username;
     key_filename := key_filename; password := password; port := port;
     label := if truthy label then label else hostname |}.

(** ** The world: remote hosts, the SSH client, standard output *)

(** What the far end does during one connection attempt: [on_connect] is
    the exception [_connect] raises, if any; [on_exec cmd] is the text
    [stdout.read().decode()] gives for [client.exec_command(cmd)], or the
    exception one of the three calls raises. *)
Record remote := {
  on_connect : option exn;
  on_exec : string -> result text
}.

Inductive event :=
| EvConnect (attempt : nat) (mon : RemoteMonitor)
| EvExec (session : nat) (cmd : string)
| EvClose (session : nat)
| EvPrintHeader
| EvPrintHost (label hostname : json) (m : dict)
| EvPrintWarning (h : json)
| EvSleep (seconds : Z).

(** [attempts] counts the connection attempts made so far; the session a
    successful attempt opens is named by its attempt number. [log] holds
    every event, oldest first. *)
Record world := {
  attempts : nat;
  log : list event
}.

Definition emit (ev : event) (w : world) : world :=
  {| attempts := attempts w; log := log w ++ [ev] |}.

(** Computations that read and change the world and may raise. *)
Definition M (A : Type) : Type := world -> result A * world.

Definition mret {A} (a : A) : M A := fun w => (Ok a, w).

Definition mbind {A B} (m : M A) (k : A -> M B) : M B :=
  fun w =>
    match m w with
    | (Ok a, w') => k a w'
    | (Raise e, w') => (Raise e, w')
    end.

Definition lift {A} (r : result A) : M A := fun w => (r, w).

Definition tell (ev : event) : M unit := fun w => (Ok tt, emit ev w).

Declare Scope world_scope.
Delimit Scope world_scope with world.
Notation "x <- m ;; k" := (mbind m (fun x => k))
  (at level 100, m at next level, right associativity) : world_scope.
Notation "m ;;; k" := (mbind m (fun _ => k))
  (at level 100, right associativity) : world_scope.

(** ** [RemoteMonitor] methods and the poll loop *)

Section Monitor.
Local Open Scope world_scope.
Local Open Scope string_scope.

(** [net a] is the behaviour met by connection attempt number [a]. *)
Variable net : nat -> remote.

(** [_connect] (lines 17 to 28): one attempt; the client is returned
    only if nothing in it raised. *)
Definition _connect (self : RemoteMonitor) : M nat :=
  fun w =>
    let a := attempts w in
    let w' := {| attempts := S a; log := log w ++ [EvConnect a self] |} in
    match on_connect (net a) with
    | Some e => (Raise e, w')
    | None => (Ok a, w')
    end.

(** [client.exec_command(cmd)] followed by [stdout.read().decode()]. *)
Definition exec_command (client : nat) (cmd : string) : M text :=
  fun w => (on_exec (net client) cmd, emit (EvExec client cmd) w).

(** [client.close()] *)
Definition close (client : nat) : M unit := tell (EvClose client).

(** Lines 39 to 85: what the [try] block does once [client] is bound. *)
Definition poll (client : nat) : M dict :=
  df_out <- exec_command client "df -h /" ;;
  free_out <- exec_command client "free -m" ;;
  loadavg_out <- exec_command client "cat /proc/loadavg" ;;
  temp_out <-
    exec_command client "cat /sys/class/thermal/thermal_zone0/temp" ;;
  let temp_raw := strip temp_out in
  lift (parse_metrics df_out free_out loadavg_out temp_raw).

(** The [try] block (lines 36 to 85). Besides its outcome it gives the
    value the local variable [client] has when the block is left:
    [None] (line 33) unless [_connect] returned. *)
Definition try_block (self : RemoteMonitor)
  : world -> result dict * option nat * world :=
  fun w =>
    match _connect self w with
    | (Raise e, w1) => (Raise e, None, w1)
    | (Ok client, w1) =>
        let '(r, w2) := poll client w1 in
        (r, Some client, w2)
    end.

(** [except Exception as e: return {"error": str(e)}] (lines 87, 88);
    an exception outside [Exception] is not caught. *)
Definition except_Exception (r : result dict) : result dict :=
  match r with
  | Ok metrics => Ok metrics
  | Raise e =>
      if is_Exception e then Ok {["error" := VStr (str_of_exn e)]}
      else Raise e
  end.

(** [get_metrics] (lines 30 to 92): [try], [except], and the [finally]
    that closes [client] when it is not [None]. *)
Definition get_metrics (self : RemoteMonitor) : M dict :=
  fun w =>
    let '(r, client, w1) := try_block self w in
    let r' := except_Exception r in
    match client with
    | Some c => let '(_, w2) := close c w1 in (r', w2)
    | None => (r', w1)
    end.

(** Lines 102 to 119: the loop of [load_hosts_from_json] over the
    entries of [hosts_config]; [monitors] is the list built so far. *)
Fixpoint load_hosts (hosts_config : list json)
  (monitors : list RemoteMonitor) : M (list RemoteMonitor) :=
  match hosts_config with
  | [] => mret monitors
  | h :: rest =>
      hostname <- lift (get h "hostname") ;;
      username <- lift (get h "username") ;;
      key_filename <- lift (get h "key_filename") ;;
      password <- lift (get h "password") ;;
      port <- lift (get_default h "port" (JInt 22)) ;;
      label <- lift (get h "label") ;;
      if (truthy hostname && truthy username)%bool then
        let mon := init hostname username key_filename password port label in
        load_hosts rest (monitors ++ [mon])
      else
        (tell (EvPrintWarning h) ;;; load_hosts rest monitors)
  end.

(** Lines 100 to 121 for the list [hosts_config] read from the file. *)
Definition load_hosts_from_json (hosts_config : list json)
  : M (list RemoteMonitor) :=
  load_hosts hosts_config [].

(** Lines 131 to 133: the [for] loop of one cycle. *)
Fixpoint poll_hosts (monitors : list RemoteMonitor) : M unit :=
  match monitors with
  | [] => mret tt
  | mon :: rest =>
      m <- get_metrics mon ;;
      (tell (EvPrintHost (label mon) (hostname mon) m) ;;; poll_hosts rest)
  end.

(** Lines 130 to 134: the body of [while True]. *)
Definition poll_cycle (monitors : list RemoteMonitor) : M unit :=
  tell EvPrintHeader ;;;
  (poll_hosts monitors ;;;
   tell (EvSleep 1)).

(** The first [n] iterations of the [while True] loop of [main]. *)
Fixpoint main_loop (n : nat) (monitors : list RemoteMonitor) : M unit :=
  match n with
  | O => mret tt
  | S n' => poll_cycle monitors ;;; main_loop n' monitors
  end.
End Monitor.

(** ** [load_hosts_from_json] from the parsed document, and [main] *)

(** [for h in v]: the items a JSON value yields. A list yields its
    elements, a [str] its characters as one-character strings, a dict its
    keys; the other values are not iterable. The keys come in the order of
    the map, which need not be the insertion order Python keeps. *)
Definition iterate (v : json) : result (list json) :=
  match v with
  | JList l => Ok l
  | JStr s =>
      Ok (map (fun c => JStr (String c EmptyString)) (list_ascii_of_string s))
  | JDict d => Ok (map (fun kv => JStr (fst kv)) (map_to_list d))
  | _ =>
      Raise (TypeError (txt "'" ++ txt (type_name v)
                        ++ txt "' object is not iterable"))
  end.

(** Lines 99 to 121, from [data], the value [json.load] returned. *)
Definition load_hosts_from_data (data : json) : M (list RemoteMonitor) :=
  (hosts_config <- lift (get_default data "hosts" (JList [])) ;;
   items <- lift (iterate hosts_config) ;;
   load_hosts_from_json items)%world.

(** [main] (lines 123 to 134), with [data] for the content of
    [hosts.json] and the first [n] iterations of its loop. *)
Definition main (net : nat -> remote) (data : json) (n : nat) : M unit :=
  (monitors <- load_hosts_from_data data ;;
   main_loop net n monitors)%world.

(** * Vocabulary of the properties *)

(** ** Texts *)

(** [t] has no whitespace character. *)
Definition no_space (t : text) : bool := all_b (fun c => negb (is_space c)) t.

(** The test of line 60. *)
Definition is_mem_row (line : text) : bool := startswith line (txt "Mem:").

(** The field of the row that [mem_free_mb] is read from: index 6 when the
    row has at least 7 fields, index 3 otherwise. *)
Definition free_field (parts : list text) : nat :=
  if (7 <=? length parts)%nat then 6%nat else 3%nat.

(** The language of [\s+(\d+)%\s+/] with its group: [s] starts with a
    match of the pattern in which group 1 is [g]. *)
Definition disk_pattern (s g : text) : Prop :=
  exists ws1 ws2 rest,
    s = ws1 ++ g ++ "%"%char :: ws2 ++ "/"%char :: rest
    /\ ws1 <> [] /\ all_b is_space ws1 = true
    /\ g <> [] /\ all_b is_digit g = true
    /\ ws2 <> [] /\ all_b is_space ws2 = true.

(** Some digit of [s] is directly followed by a percent sign. *)
Fixpoint digit_percent (s : text) : bool :=
  match s with
  | [] => false
  | c :: s' =>
      (is_digit c
       && match s' with
          | c2 :: _ => ascii_eqb c2 "%"%char
          | [] => false
          end)
      || digit_percent s'
  end.

(** [float] accepts [t]. *)
Definition numeric (t : text) : bool :=
  match float_syntax t with Some _ => true | None => false end.

(** Field [i] of a row exists and [float] accepts it. *)
Definition field_numeric (parts : list text) (i : nat) : bool :=
  match parts !! i with Some p => numeric p | None => false end.

(** The row has the two fields lines 62 and 63 read, and they are numeric. *)
Definition mem_row_ok (line : text) : bool :=
  let parts := split line in
  (field_numeric parts 1 && field_numeric parts (free_field parts))%bool.

(** No line starts with ["Mem:"], or the first that does is such a row. *)
Fixpoint mem_lines_ok (lines : list text) : bool :=
  match lines with
  | [] => true
  | line :: rest => if is_mem_row line then mem_row_ok line else mem_lines_ok rest
  end.

(** Fewer than three tokens, or the first three are numeric. *)
Definition load_ok (loadavg_out : text) : bool :=
  let parts := split loadavg_out in
  if (3 <=? length parts)%nat
  then (field_numeric parts 0 && field_numeric parts 1
        && field_numeric parts 2)%bool
  else true.

(** The memory and load texts for which lines 58 to 76 raise nothing. *)
Definition well_formed (free_out loadavg_out : text) : bool :=
  (mem_lines_ok (splitlines free_out) && load_ok loadavg_out)%bool.

(** The exceptions lines 51 to 76 can raise. *)
Definition is_parse_error (e : exn) : bool :=
  match e with ValueError _ | IndexError _ => true | _ => false end.

(** ** Snapshots *)

Definition optional_float (v : pyval) : Prop :=
  v = VNone \/ exists x, v = VFloat x.

(** Success shape: exactly the seven metric keys, each [None] or a float. *)
Definition success_shape (m : dict) : Prop :=
  dom m = list_to_set metric_keys
  /\ forall k v, m !! k = Some v -> optional_float v.

(** Failure shape: the single key ["error"] with a description. *)
Definition failure_shape (m : dict) : Prop :=
  exists msg, m = {["error"%string := VStr msg]}.

(** [metrics] holds the keys [ks], each with [None] or a float. *)
Definition filled (ks : gset string) (m : dict) : Prop :=
  dom m = ks /\ forall k v, m !! k = Some v -> optional_float v.

(** ** One attempt, read off the far end *)

(** The [try] block after the connection: the four texts, then the
    parser. *)
Definition run_commands (r : remote) : result dict :=
  (df_out <- on_exec r "df -h /" ;;
   free_out <- on_exec r "free -m" ;;
   loadavg_out <- on_exec r "cat /proc/loadavg" ;;
   temp_out <- on_exec r "cat /sys/class/thermal/thermal_zone0/temp" ;;
   parse_metrics df_out free_out loadavg_out (strip temp_out))%result.

(** What one attempt against [r] returns or raises. *)
Definition outcome (r : remote) : result dict :=
  except_Exception
    match on_connect r with
    | Some e => Raise e
    | None => run_commands r
    end.

(** The attempt returns a snapshot. *)
Definition returns (r : remote) : Prop := exists m, outcome r = Ok m.

(** The snapshot of an attempt that returned one. *)
Definition snapshot (r : remote) : dict :=
  match outcome r with Ok m => m | Raise _ => ∅ end.

(** The commands run before the [try] block is left: all four, or those up
    to the first whose execution raises. *)
Definition commands_run (r : remote) : list string :=
  match on_exec r "df -h /" with
  | Raise _ => ["df -h /"]
  | Ok _ =>
      match on_exec r "free -m" with
      | Raise _ => ["df -h /"; "free -m"]
      | Ok _ =>
          match on_exec r "cat /proc/loadavg" with
          | Raise _ => ["df -h /"; "free -m"; "cat /proc/loadavg"]
          | Ok _ =>
              ["df -h /"; "free -m"; "cat /proc/loadavg";
               "cat /sys/class/thermal/thermal_zone0/temp"]
          end
      end
  end%string.

(** The events of one attempt against [r] as session [sid]. *)
Definition attempt_events (self : RemoteMonitor) (sid : nat) (r : remote)
  : list event :=
  EvConnect sid self
  :: match on_connect r with
     | Some _ => []
     | None => map (EvExec sid) (commands_run r) ++ [EvClose sid]
     end.

(** The number of times [client.close()] was called on session [sid]. *)
Definition closes_of (sid : nat) (evs : list event) : nat :=
  length (List.filter (fun ev => match ev with
                                 | EvClose s => Nat.eqb s sid
                                 | _ => false
                                 end) evs).

(** No transport failure: the connection is made and every command gives
    its text. *)
Definition transport_ok (r : remote) : bool :=
  match on_connect r with
  | Some _ => false
  | None =>
      forallb (fun cmd => match on_exec r cmd with
                          | Ok _ => true
                          | Raise _ => false
                          end)
        ["df -h /"; "free -m"; "cat /proc/loadavg";
         "cat /sys/class/thermal/thermal_zone0/temp"]%string
  end.

(** The far end accepts the connection and answers the four commands, and
    the memory and load texts are well formed. *)
Definition healthy (r : remote) : Prop :=
  on_connect r = None
  /\ exists df_out free_out loadavg_out temp_out,
      on_exec r "df -h /" = Ok df_out
      /\ on_exec r "free -m" = Ok free_out
      /\ on_exec r "cat /proc/loadavg" = Ok loadavg_out
      /\ on_exec r "cat /sys/class/thermal/thermal_zone0/temp" = Ok temp_out
      /\ well_formed free_out loadavg_out = true.

(** ** A cycle *)

(** The snapshots printed, in order, each with the label and host name on
    its line. *)
Definition printed (evs : list event) : list (json * json * dict) :=
  omap (fun ev => match ev with
                  | EvPrintHost l h m => Some (l, h, m)
                  | _ => None
                  end) evs.

(** The events of the [for] loop over [monitors] when the first attempt is
    number [a] and every attempt returns a snapshot. *)
Fixpoint hosts_events (net : nat -> remote) (a : nat)
  (monitors : list RemoteMonitor) : list event :=
  match monitors with
  | [] => []
  | mon :: rest =>
      attempt_events mon a (net a)
      ++ EvPrintHost (label mon) (hostname mon) (snapshot (net a))
      :: hosts_events net (S a) rest
  end.

(** ** Registry entries *)

(** [h.get(key)] for an entry that is a JSON object. *)
Definition field (d : gmap string json) (key : string) : json :=
  match d !! key with Some v => v | None => JNull end.

(** The test of line 110. *)
Definition entry_valid (d : gmap string json) : bool :=
  (truthy (field d "hostname") && truthy (field d "username"))%bool.

(** The monitor lines 111 to 116 build from an entry. *)
Definition monitor_of (d : gmap string json) : RemoteMonitor :=
  init (field d "hostname") (field d "username") (field d "key_filename")
    (field d "password")
    (match d !! "port"%string with Some v => v | None => JInt 22 end)
    (field d "label").

(** The entry has the field, and not as [null]. *)
Definition present (d : gmap string json) (key : string) : bool :=
  match d !! key with
  | Some JNull | None => false
  | Some _ => true
  end.

(** ** Hosts, outputs and worlds of the examples *)

(** Output of [df -h /]. *)
Definition df_example : text :=
  txt "Filesystem      Size  Used Avail Use% Mounted on" ++ ["010"%char]
  ++ txt "/dev/root        29G  5.0G   23G  18% /" ++ ["010"%char].

(** Disk text with two rows, the first for a mount whose path only
    starts with a slash. *)
Definition df_two_mounts : text :=
  txt "a 5% /boot" ++ ["010"%char] ++ txt "b 18% /" ++ ["010"%char].

(** Output of [free -m]; the row has seven fields, the label included. *)
Definition free_example : text :=
  txt "               total        used        free      shared  buff/cache   available"
  ++ ["010"%char]
  ++ txt "Mem:            1837         900          50          30         887         700"
  ++ ["010"%char]
  ++ txt "Swap:             99           0          99" ++ ["010"%char].

(** A host that accepts the connection and answers the four commands with
    the given texts. *)
Definition host_output (df_out free_out loadavg_out temp_out : text)
  : remote :=
  {| on_connect := None;
     on_exec := fun cmd =>
       if String.eqb cmd "df -h /" then Ok df_out
       else if String.eqb cmd "free -m" then Ok free_out
       else if String.eqb cmd "cat /proc/loadavg" then Ok loadavg_out
       else Ok temp_out |}.

(** A host the connection to which fails with [e]. *)
Definition host_down (e : exn) : remote :=
  {| on_connect := Some e;
     on_exec := fun _ => Raise e |}.

(** A host that answers every command; its memory row has three fields. *)
Definition short_row_host : remote :=
  host_output df_example (txt "Mem: 1837 900")
    (txt "0.15 0.22 0.10 1/241 12345") (txt "45780").

Definition pi : RemoteMonitor :=
  init (JStr "10.0.0.7") (JStr "pi") JNull JNull (JInt 22) (JStr "rack-1").

Definition fleet : list RemoteMonitor :=
  [pi;
   init (JStr "10.0.0.8") (JStr "pi") JNull JNull (JInt 22) JNull;
   init (JStr "10.0.0.9") (JStr "admin") (JStr "~/.ssh/id_ed25519") JNull
     (JInt 2222) (JStr "rack-3")].

(** The second host of [fleet] is unreachable during the first two cycles
    and answers from the third cycle on; the other two always answer. *)
Definition flaky_net (a : nat) : remote :=
  if ((a mod 3 =? 1) && (a <? 6))%nat
  then host_down (OtherException "TimeoutError" (txt "timed out"))
  else host_output df_example free_example
         (txt "0.15 0.22 0.10 1/241 12345" ++ ["010"%char])
         (txt "45780" ++ ["010"%char]).

(** The world before anything happened. *)
Definition world0 : world := {| attempts := 0; log := [] |}.

(** The world after the first cycle over [fleet]. *)
Definition world1 : world := snd (main_loop flaky_net 1 fleet world0).

(** An entry whose host name is the empty string. *)
Definition unnamed_entry : gmap string json :=
  <["hostname"%string := JStr ""]> (<["username"%string := JStr "pi"]> ∅).

(** ** More vocabulary *)

(** The four diagnostic commands, in the order of lines 39 to 48. *)
Definition four_commands : list string :=
  ["df -h /"; "free -m"; "cat /proc/loadavg";
   "cat /sys/class/thermal/thermal_zone0/temp"]%string.

(** The first exception among those of the given commands, in order. *)
Fixpoint first_raise (r : remote) (cmds : list string) : option exn :=
  match cmds with
  | [] => None
  | cmd :: rest =>
      match on_exec r cmd with
      | Raise e => Some e
      | Ok _ => first_raise r rest
      end
  end.

(** The first exception of one attempt before the parser runs: that of
    the connection, else that of the first command that raises. *)
Definition first_failure (r : remote) : option exn :=
  match on_connect r with
  | Some e => Some e
  | None => first_raise r four_commands
  end.

(** The number of events of each kind in a log. *)
Definition count_ev (p : event -> bool) (evs : list event) : nat :=
  length (List.filter p evs).

Definition is_connect (ev : event) : bool :=
  match ev with EvConnect _ _ => true | _ => false end.

Definition is_header (ev : event) : bool :=
  match ev with EvPrintHeader => true | _ => false end.

Definition is_sleep_1 (ev : event) : bool :=
  match ev with EvSleep s => (s =? 1)%Z | _ => false end.

Definition is_print_host (ev : event) : bool :=
  match ev with EvPrintHost _ _ _ => true | _ => false end.

(** The value is a JSON object. *)
Definition is_object (v : json) : bool :=
  match v with JDict _ => true | _ => false end.

(** The monitor has a host name, a user name and a label that are true
    values. *)
Definition named (mon : RemoteMonitor) : bool :=
  (truthy (hostname mon) && truthy (username mon) && truthy (label mon))%bool.

(** For every session, the events hold one [close] if its attempt number
    lies in [a, b) and the connection was made, and none otherwise. *)
Definition balanced (net : nat -> remote) (a b : nat) (evs : list event)
  : Prop :=
  forall sid,
    closes_of sid evs
    = if ((a <=? sid) && (sid <? b))%nat
      then match on_connect (net sid) with None => 1%nat | Some _ => 0%nat end
      else 0%nat.

(** A key interrupt, an exception outside [Exception]. *)
Definition interrupt : exn := BaseOnly "KeyboardInterrupt" (txt "").

(** A host that accepts the connection and is interrupted while the
    memory command runs. *)
Definition host_interrupted : remote :=
  {| on_connect := None;
     on_exec := fun cmd =>
       if String.eqb cmd "df -h /" then Ok df_example else Raise interrupt |}.

(** A registry document with a valid entry, an entry without a user name
    and a second valid entry. *)
Definition hosts_document : json :=
  JDict (<["hosts"%string :=
            JList [JDict (<["hostname"%string := JStr "10.0.0.7"]>
                            (<["username"%string := JStr "pi"]> ∅));
                   JDict (<["hostname"%string := JStr "10.0.0.8"]> ∅);
                   JDict (<["hostname"%string := JStr "10.0.0.9"]>
                            (<["username"%string := JStr "admin"]>
                               (<["port"%string := JNull]>
                                  (<["label"%string := JStr "rack-3"]>
                                     ∅))))]]> ∅).

(** [w'] comes after [w]: its log is that of [w] with events added in
    which the sessions of the attempts made in between are [balanced]. *)
Definition extends (net : nat -> remote) (w w' : world) : Prop :=
  exists evs,
    log w' = log w ++ evs
    /\ (attempts w <= attempts w')%nat
    /\ balanced net (attempts w) (attempts w') evs.

(** The label and host name printed for a monitor. *)
Definition name_of (mon : RemoteMonitor) : json * json :=
  (label mon, hostname mon).

(** * Properties *)

(** ** Characters and spans *)

Lemma in_range_spec lo hi c :
  in_range lo hi c = true <-> (lo <= code c <= hi)%N.
Proof.
  unfold in_range. rewrite andb_true_iff, !N.leb_le. tauto.
Qed.

Lemma ascii_eqb_spec a b : ascii_eqb a b = true <-> a = b.
Proof.
  unfold ascii_eqb, code. rewrite N.eqb_eq. split.
  - intros H. rewrite <- (ascii_N_embedding a), <- (ascii_N_embedding b).
    now rewrite H.
  - now intros ->.
Qed.

Lemma ascii_eqb_refl a : ascii_eqb a a = true.
Proof. now apply ascii_eqb_spec. Qed.

Lemma digit_not_char c (d : ascii) :
  is_digit c = true -> is_digit d = false -> ascii_eqb c d = false.
Proof.
  intros Hc Hd. destruct (ascii_eqb c d) eqn:E; [|reflexivity].
  apply ascii_eqb_spec in E. subst d. congruence.
Qed.

Lemma digit_not_space c : is_digit c = true -> is_space c = false.
Proof.
  unfold is_digit, is_space. rewrite in_range_spec. intros H.
  rewrite !orb_false_iff. repeat split.
  - apply not_true_is_false. rewrite in_range_spec. lia.
  - apply not_true_is_false. rewrite in_range_spec. lia.
  - apply N.eqb_neq. lia.
  - apply N.eqb_neq. lia.
Qed.

Lemma digit_not_float_space c : is_digit c = true -> is_float_space c = false.
Proof.
  unfold is_digit, is_float_space. rewrite in_range_spec. intros H.
  rewrite !orb_false_iff. repeat split.
  - apply not_true_is_false. rewrite in_range_spec. lia.
  - apply N.eqb_neq. lia.
  - apply N.eqb_neq. lia.
  - apply N.eqb_neq. lia.
Qed.

Lemma digit_to_lower c : is_digit c = true -> to_lower c = c.
Proof.
  unfold is_digit, to_lower. rewrite in_range_spec. intros H.
  replace (in_range 65 90 c) with false; [reflexivity|].
  symmetry. apply not_true_is_false. rewrite in_range_spec. lia.
Qed.

Section SpanFacts.
Context {A : Type} (p : A -> bool).

Lemma span_app (l : list A) : fst (span p l) ++ snd (span p l) = l.
Proof.
  induction l as [|x l IH]; simpl; [reflexivity|].
  destruct (p x); [|reflexivity].
  destruct (span p l) as [a b]; simpl in *. now rewrite IH.
Qed.

Lemma span_fst_all (l : list A) : all_b p (fst (span p l)) = true.
Proof.
  induction l as [|x l IH]; simpl; [reflexivity|].
  destruct (p x) eqn:E; [|reflexivity].
  destruct (span p l) as [a b]; simpl in *. now rewrite E.
Qed.

Lemma span_snd_head (l : list A) x r :
  snd (span p l) = x :: r -> p x = false.
Proof.
  induction l as [|y l IH]; simpl; [discriminate|].
  destruct (p y) eqn:E.
  - destruct (span p l) as [a b]; simpl in *. exact IH.
  - simpl. intros [= -> _]. exact E.
Qed.

(** A run of [p] followed by something that does not start with [p] is
    split exactly there. *)
Lemma span_run (a r : list A) :
  all_b p a = true ->
  match r with [] => True | x :: _ => p x = false end ->
  span p (a ++ r) = (a, r).
Proof.
  intros Ha Hr. induction a as [|x a IH]; simpl in *.
  - destruct r as [|y r]; [reflexivity|]. simpl. now rewrite Hr.
  - apply andb_true_iff in Ha as [Hx Ha]. rewrite Hx, (IH Ha). reflexivity.
Qed.

Lemma span_all (l : list A) : all_b p l = true -> span p l = (l, []).
Proof.
  intros H. rewrite <- (app_nil_r l) at 1. now apply span_run.
Qed.

Lemma drop_while_head (l : list A) :
  match l with [] => True | x :: _ => p x = false end ->
  drop_while p l = l.
Proof. destruct l as [|x l]; simpl; [reflexivity|]. now intros ->. Qed.
End SpanFacts.

Lemma all_b_rev {A} (p : A -> bool) (l : list A) :
  all_b p (rev l) = all_b p l.
Proof.
  unfold all_b. induction l as [|x l IH]; simpl; [reflexivity|].
  rewrite forallb_app, IH. simpl. rewrite andb_true_r. apply andb_comm.
Qed.

Lemma all_b_head {A} (p q : A -> bool) (l : list A) :
  (forall x, p x = true -> q x = false) ->
  all_b p l = true ->
  match l with [] => True | x :: _ => q x = false end.
Proof.
  intros H Hl. destruct l as [|x l]; [exact I|].
  simpl in Hl. apply andb_true_iff in Hl as [Hx _]. now apply H.
Qed.

(** Text that neither starts nor ends with a stripped character is left
    alone by [strip]. *)
Lemma strip_with_id sp (s : text) :
  match s with [] => True | x :: _ => sp x = false end ->
  match rev s with [] => True | x :: _ => sp x = false end ->
  strip_with sp s = s.
Proof.
  intros H1 H2. unfold strip_with.
  rewrite (drop_while_head sp s H1), (drop_while_head sp (rev s) H2).
  apply rev_involutive.
Qed.

Lemma strip_with_digits sp (ds : text) :
  (forall c, is_digit c = true -> sp c = false) ->
  all_b is_digit ds = true -> strip_with sp ds = ds.
Proof.
  intros H Hd. apply strip_with_id.
  - now apply (all_b_head is_digit).
  - apply (all_b_head is_digit); [exact H|]. now rewrite all_b_rev.
Qed.

(** ** [str] methods on sample texts *)

Example splitlines_samples :
  splitlines (txt "a" ++ ["010"%char]) = [txt "a"]
  /\ splitlines (txt "") = []
  /\ splitlines (txt "a" ++ ["010"%char; "010"%char] ++ txt "b")
     = [txt "a"; txt ""; txt "b"]
  /\ splitlines (txt "a" ++ ["013"%char; "010"%char] ++ txt "b")
     = [txt "a"; txt "b"]
  /\ splitlines (txt "a" ++ ["010"%char; "013"%char] ++ txt "b")
     = [txt "a"; txt ""; txt "b"]
  /\ splitlines (txt "a" ++ ["031"%char] ++ txt "b")
     = [txt "a" ++ ["031"%char] ++ txt "b"].
Proof. repeat split; reflexivity. Qed.

Example split_strip_samples :
  split (txt " a  b ") = [txt "a"; txt "b"]
  /\ split (txt "a" ++ ["031"%char] ++ txt "b") = [txt "a"; txt "b"]
  /\ split (txt "") = []
  /\ strip (txt " a  b " ++ ["010"%char]) = txt "a  b"
  /\ startswith (txt "Mem:   1837") (txt "Mem:") = true
  /\ startswith (txt " Mem: 1837") (txt "Mem:") = false.
Proof. repeat split; reflexivity. Qed.

(** ** [float] on a run of digits *)

Lemma digits_no_underscore (ds : text) :
  all_b is_digit ds = true -> existsb (ascii_eqb "_"%char) ds = false.
Proof.
  induction ds as [|c ds IH]; simpl; [reflexivity|].
  intros H. apply andb_true_iff in H as [Hc Hd].
  rewrite (IH Hd), orb_false_r.
  destruct (ascii_eqb "_"%char c) eqn:E; [|reflexivity].
  apply ascii_eqb_spec in E. subst c. discriminate.
Qed.

Lemma digits_take_sign (c : ascii) (ds : text) :
  is_digit c = true -> take_sign (c :: ds) = (false, c :: ds).
Proof.
  intros Hc. unfold take_sign.
  rewrite (digit_not_char c "-"%char Hc eq_refl).
  now rewrite (digit_not_char c "+"%char Hc eq_refl).
Qed.

Lemma digits_not_inf_or_nan (c : ascii) (ds : text) :
  is_digit c = true -> parse_inf_or_nan (c :: ds) = None.
Proof.
  intros Hc. unfold parse_inf_or_nan. rewrite (digits_take_sign c ds Hc).
  cbn [map]. rewrite (digit_to_lower c Hc).
  change (txt "inf") with ("i"%char :: txt "nf").
  change (txt "infinity") with ("i"%char :: txt "nfinity").
  change (txt "nan") with ("n"%char :: txt "an").
  cbn [text_eqb].
  rewrite (digit_not_char c "i"%char Hc eq_refl).
  now rewrite (digit_not_char c "n"%char Hc eq_refl).
Qed.

Example digits_val_45780 : digits_val (txt "45780") = 45780.
Proof. reflexivity. Qed.

(** [float] reads a non-empty run of decimal digits as the integer it
    denotes, rounded to the nearest binary64. *)
Lemma float_syntax_digits (ds : text) :
  ds <> [] -> all_b is_digit ds = true ->
  float_syntax ds = Some (float_of_decimal false (digits_val ds) 0).
Proof.
  intros Hne Hd. unfold float_syntax.
  rewrite (strip_with_digits _ ds digit_not_float_space Hd).
  rewrite (digits_no_underscore ds Hd).
  destruct ds as [|c ds]; [congruence|].
  assert (Hc : is_digit c = true).
  { simpl in Hd. now apply andb_true_iff in Hd as [Hc _]. }
  rewrite (digits_not_inf_or_nan c ds Hc).
  unfold parse_decimal. rewrite (digits_take_sign c ds Hc).
  rewrite (span_all is_digit (c :: ds) Hd). cbn [app length].
  rewrite app_nil_r. reflexivity.
Qed.

Lemma py_float_digits (ds : text) :
  ds <> [] -> all_b is_digit ds = true ->
  py_float ds = Ok (float_of_decimal false (digits_val ds) 0).
Proof.
  intros Hne Hd. unfold py_float. now rewrite float_syntax_digits.
Qed.

(** ** [float] on sample texts *)

(** Rounding is to nearest, ties to even, with overflow to infinity and
    underflow to zero, as [strtod] does. *)
Example float_of_decimal_rounding :
  float_of_decimal false 1 (-1) = 0.1%float
  /\ float_of_decimal false 1 23 = 1e23%float
  /\ float_of_decimal false 9007199254740993 0 = 9007199254740992%float
  /\ float_of_decimal false 9007199254740995 0 = 9007199254740996%float
  /\ float_of_decimal false 5 (-324) = 5e-324%float
  /\ float_of_decimal false 24703282292062327 (-340) = 0%float
  /\ float_of_decimal false 17976931348623159 292 = infinity
  /\ float_of_decimal true 0 0 = (-0)%float.
Proof. repeat split; vm_compute; reflexivity. Qed.

Example py_float_accepts :
  py_float (txt " 1 ") = Ok 1%float
  /\ py_float (txt "1_0") = Ok 10%float
  /\ py_float (txt ".5") = Ok 0.5%float
  /\ py_float (txt "1.e5") = Ok 100000%float
  /\ py_float (txt "1e400") = Ok infinity
  /\ py_float (txt "-Infinity") = Ok neg_infinity
  /\ py_float (txt "+nan") = Ok nan
  /\ py_float (txt "-0") = Ok (-0)%float.
Proof. repeat split; vm_compute; reflexivity. Qed.

Example py_float_rejects :
  py_float (txt "1__0")
  = Raise (ValueError (txt "could not convert string to float: '1__0'"))
  /\ py_float (txt "1e")
     = Raise (ValueError (txt "could not convert string to float: '1e'"))
  /\ py_float (txt "0x10")
     = Raise (ValueError (txt "could not convert string to float: '0x10'"))
  /\ py_float (txt "1 2")
     = Raise (ValueError (txt "could not convert string to float: '1 2'"))
  /\ py_float (txt "infin")
     = Raise (ValueError (txt "could not convert string to float: 'infin'"))
  /\ py_float (txt "")
     = Raise (ValueError (txt "could not convert string to float: ''")).
Proof. repeat split; vm_compute; reflexivity. Qed.

(** ** What [float] accepts has a digit, or spells infinity or NaN *)

Lemma existsb_drop_while {A} (p q : A -> bool) (l : list A) :
  existsb p (drop_while q l) = true -> existsb p l = true.
Proof.
  induction l as [|x l IH]; simpl; [discriminate|].
  destruct (q x); [|exact (fun H => H)].
  intros H. rewrite (IH H). apply orb_true_r.
Qed.

Lemma existsb_rev' {A} (p : A -> bool) (l : list A) :
  existsb p (rev l) = existsb p l.
Proof.
  induction l as [|x l IH]; simpl; [reflexivity|].
  rewrite existsb_app, IH. simpl. rewrite orb_false_r. apply orb_comm.
Qed.

Lemma existsb_strip_with (p sp : ascii -> bool) (s : text) :
  existsb p (strip_with sp s) = true -> existsb p s = true.
Proof.
  unfold strip_with. rewrite existsb_rev'. intros H.
  apply existsb_drop_while in H. rewrite existsb_rev' in H.
  now apply existsb_drop_while in H.
Qed.

Lemma existsb_run {A} (p : A -> bool) (l r : list A) :
  l <> [] -> all_b p l = true -> existsb p (l ++ r) = true.
Proof.
  intros Hne H. destruct l as [|x l]; [congruence|].
  simpl in *. now apply andb_true_iff in H as [-> _].
Qed.

Lemma take_sign_digit (s : text) :
  existsb is_digit (snd (take_sign s)) = true -> existsb is_digit s = true.
Proof.
  unfold take_sign. destruct s as [|c s]; [discriminate|].
  destruct (ascii_eqb c "-"%char); [|destruct (ascii_eqb c "+"%char)];
    cbn [snd]; try (exact (fun H => H)); intros H; cbn [existsb];
    rewrite H; apply orb_true_r.
Qed.

(** An underscore needs a digit before it. *)
Lemma drop_underscores_digit (prev : ascii) (t u : text) :
  existsb (ascii_eqb "_"%char) t = true ->
  drop_underscores prev t = Some u ->
  is_digit prev = true \/ existsb is_digit t = true.
Proof.
  revert prev u. induction t as [|c t IH]; intros prev u; [discriminate|].
  cbn [existsb drop_underscores].
  destruct (ascii_eqb c "_"%char) eqn:Ec.
  - intros _. destruct (is_digit prev); [now left|discriminate].
  - destruct (ascii_eqb prev "_"%char && negb (is_digit c))%bool;
      [discriminate|].
    replace (ascii_eqb "_"%char c) with false.
    2:{ symmetry. apply not_true_is_false. intros E.
        apply ascii_eqb_spec in E. subst c. discriminate. }
    cbn [orb]. intros Hu Hd.
    destruct (drop_underscores c t) as [u'|] eqn:D; [|discriminate].
    right. destruct (IH c u' Hu D) as [H|H]; rewrite H;
      [reflexivity|apply orb_true_r].
Qed.

(** A decimal numeral has a digit. *)
Lemma parse_decimal_digit (u : text) (x : float) :
  parse_decimal u = Some x -> existsb is_digit u = true.
Proof.
  unfold parse_decimal. intros H. apply take_sign_digit.
  destruct (take_sign u) as [neg r]. cbn [snd].
  pose proof (span_app is_digit r) as A1.
  pose proof (span_fst_all is_digit r) as S1.
  destruct (span is_digit r) as [ip r1]. cbn [fst snd] in A1, S1.
  destruct ip as [|i ip].
  - cbn [app] in A1. subst r1.
    destruct r as [|c r']; [discriminate|].
    destruct (ascii_eqb c "."%char); [|discriminate].
    pose proof (span_app is_digit r') as A2.
    pose proof (span_fst_all is_digit r') as S2.
    destruct (span is_digit r') as [fp r2]. cbn [fst snd] in A2, S2.
    destruct fp as [|f fp]; [discriminate|].
    cbn [existsb]. rewrite <- A2.
    rewrite (existsb_run is_digit (f :: fp) r2); [apply orb_true_r| |exact S2].
    discriminate.
  - rewrite <- A1. apply existsb_run; [discriminate|exact S1].
Qed.

Lemma float_syntax_some (s : text) (x : float) :
  float_syntax s = Some x ->
  existsb is_digit s = true
  \/ parse_inf_or_nan (strip_with is_float_space s) = Some x.
Proof.
  unfold float_syntax. set (t := strip_with is_float_space s).
  destruct (existsb (ascii_eqb "_"%char) t) eqn:U.
  - destruct (drop_underscores "000"%char t) as [u|] eqn:D; [|discriminate].
    intros _. left. apply (existsb_strip_with is_digit is_float_space).
    destruct (drop_underscores_digit _ _ _ U D) as [H|H];
      [discriminate|exact H].
  - destruct (parse_inf_or_nan t) as [y|]; [intros [= ->]; now right|].
    intros H. left. apply (existsb_strip_with is_digit is_float_space).
    now apply (parse_decimal_digit t x).
Qed.

(** Text without a digit that does not spell infinity or NaN is rejected
    by [float]. *)
Lemma py_float_no_digit (s : text) :
  existsb is_digit s = false ->
  parse_inf_or_nan (strip_with is_float_space s) = None ->
  forall x, py_float s <> Ok x.
Proof.
  intros Hd Hs x. unfold py_float.
  destruct (float_syntax s) as [y|] eqn:E; [|discriminate].
  destruct (float_syntax_some s y E); congruence.
Qed.

Lemma text_eqb_eq (a b : text) : text_eqb a b = true -> a = b.
Proof.
  revert b. induction a as [|x a IH]; intros [|y b]; cbn [text_eqb];
    try discriminate; [reflexivity|].
  intros H. apply andb_true_iff in H as [H1 H2].
  apply ascii_eqb_spec in H1. subst y. now rewrite (IH b H2).
Qed.

Lemma underscore_to_lower (r : text) :
  existsb (ascii_eqb "_"%char) r = true ->
  existsb (ascii_eqb "_"%char) (map to_lower r) = true.
Proof.
  induction r as [|c r IH]; [discriminate|]. cbn [existsb map].
  intros H. apply orb_true_iff in H as [H|H].
  - apply ascii_eqb_spec in H. subst c. reflexivity.
  - rewrite (IH H). apply orb_true_r.
Qed.

(** The spellings of infinity and NaN have no underscore. *)
Lemma inf_or_nan_no_underscore (t : text) (x : float) :
  parse_inf_or_nan t = Some x -> existsb (ascii_eqb "_"%char) t = false.
Proof.
  intros H. destruct (existsb (ascii_eqb "_"%char) t) eqn:U; [|reflexivity].
  assert (Ur : existsb (ascii_eqb "_"%char) (snd (take_sign t)) = true).
  { unfold take_sign. destruct t as [|c t]; [discriminate|].
    cbn [existsb] in U.
    destruct (ascii_eqb c "-"%char) eqn:E1.
    - apply ascii_eqb_spec in E1. subst c. exact U.
    - destruct (ascii_eqb c "+"%char) eqn:E2; [|exact U].
      apply ascii_eqb_spec in E2. subst c. exact U. }
  apply underscore_to_lower in Ur.
  unfold parse_inf_or_nan in H. destruct (take_sign t) as [neg r].
  cbn [snd] in Ur.
  destruct (text_eqb (map to_lower r) (txt "inf")) eqn:E1.
  { apply text_eqb_eq in E1. rewrite E1 in Ur. discriminate. }
  destruct (text_eqb (map to_lower r) (txt "infinity")) eqn:E2.
  { apply text_eqb_eq in E2. rewrite E2 in Ur. discriminate. }
  cbn [orb] in H.
  destruct (text_eqb (map to_lower r) (txt "nan")) eqn:E3; [|discriminate].
  apply text_eqb_eq in E3. rewrite E3 in Ur. discriminate.
Qed.

(** On text without a digit [float] accepts the spellings of infinity and
    NaN and nothing else. *)
Lemma float_syntax_no_digit (s : text) :
  existsb is_digit s = false ->
  float_syntax s = parse_inf_or_nan (strip_with is_float_space s).
Proof.
  intros Hd. unfold float_syntax. set (t := strip_with is_float_space s).
  assert (Ht : existsb is_digit t = false).
  { destruct (existsb is_digit t) eqn:E; [|reflexivity].
    apply existsb_strip_with in E. congruence. }
  destruct (existsb (ascii_eqb "_"%char) t) eqn:U.
  - destruct (parse_inf_or_nan t) as [x|] eqn:P.
    { apply inf_or_nan_no_underscore in P. congruence. }
    destruct (drop_underscores "000"%char t) as [u|] eqn:D; [|reflexivity].
    destruct (drop_underscores_digit _ _ _ U D) as [H|H];
      [discriminate|congruence].
  - destruct (parse_inf_or_nan t) as [x|]; [reflexivity|].
    destruct (parse_decimal t) as [y|] eqn:P; [|reflexivity].
    apply parse_decimal_digit in P. congruence.
Qed.

(** ** Temperature (lines 78 to 83) *)

Lemma strip_all_space (s : text) : all_b is_space s = true -> strip s = [].
Proof.
  intros H. unfold strip, strip_with.
  assert (D : forall l : text, all_b is_space l = true ->
                               drop_while is_space l = []).
  { induction l as [|c l IH]; simpl; [reflexivity|].
    intros Hl. apply andb_true_iff in Hl as [-> Hl]. now apply IH. }
  now rewrite (D s H).
Qed.

Lemma parse_temperature_ok (temp_raw : text) (metrics : dict) (x : float) :
  py_float temp_raw = Ok x ->
  parse_temperature temp_raw metrics
  = Ok (<["temperature_c" := VFloat (x / 1000)]> metrics).
Proof. intros H. unfold parse_temperature. now rewrite H. Qed.

Lemma parse_temperature_none (temp_raw : text) (metrics : dict) :
  (forall x, py_float temp_raw <> Ok x) ->
  parse_temperature temp_raw metrics
  = Ok (<["temperature_c" := VNone]> metrics).
Proof.
  intros H. unfold parse_temperature, py_float in *.
  destruct (float_syntax temp_raw) as [x|]; [|reflexivity].
  now destruct (H x).
Qed.

Lemma py_float_empty : forall x, py_float (txt "") <> Ok x.
Proof. intros x. vm_compute. discriminate. Qed.

(** A returned dictionary whose field is a float is not one whose field
    is [None]. *)
Lemma parse_temperature_none_rejects (temp_raw : text) (metrics : dict) :
  parse_temperature temp_raw metrics
  = Ok (<["temperature_c" := VNone]> metrics) ->
  forall x, py_float temp_raw <> Ok x.
Proof.
  intros H x Hx. rewrite (parse_temperature_ok _ _ _ Hx) in H.
  apply (f_equal (fun r => match r with
                           | Ok m => m !! "temperature_c"%string
                           | Raise _ => None
                           end)) in H.
  rewrite !lookup_insert_eq in H. discriminate.
Qed.

Lemma parse_temperature_no_digit (temp_raw : text) (metrics : dict) :
  existsb is_digit temp_raw = false ->
  parse_temperature temp_raw metrics
  = Ok (<["temperature_c" :=
            match parse_inf_or_nan (strip_with is_float_space temp_raw) with
            | Some x => VFloat (x / 1000)
            | None => VNone
            end]> metrics).
Proof.
  intros H. unfold parse_temperature, py_float.
  rewrite (float_syntax_no_digit _ H).
  now destruct (parse_inf_or_nan (strip_with is_float_space temp_raw)).
Qed.

(** C7, as the code has it: the temperature text is given to [float] and
    the value is divided by 1000.0. A non-empty run of digits denoting the
    integer [n] gives [float(n) / 1000.0], so ["45780"] gives 45.78. The
    field is [None] exactly when [float] rejects the text, as it does the
    empty text (also what is left of an output of only whitespace, or of
    no output) and ["abc"]. Text that is no number is not always rejected:
    [float] accepts the spellings of infinity and NaN, so text without a
    digit gives a float when it is one of these spellings and [None]
    otherwise; ["nan"], ["inf"] and ["-Infinity"] give NaN, infinity and
    minus infinity. Whatever the text, the step returns with the key set:
    it never raises. *)
Theorem temperature_millidegrees (temp_raw : text) (metrics : dict) :
  (temp_raw <> [] -> all_b is_digit temp_raw = true ->
   parse_temperature temp_raw metrics
   = Ok (<["temperature_c" :=
             VFloat (float_of_decimal false (digits_val temp_raw) 0 / 1000)]>
           metrics))
  /\ (parse_temperature temp_raw metrics
      = Ok (<["temperature_c" := VNone]> metrics)
      <-> forall x, py_float temp_raw <> Ok x)
  /\ (existsb is_digit temp_raw = false ->
      parse_temperature temp_raw metrics
      = Ok (<["temperature_c" :=
                match parse_inf_or_nan
                        (strip_with is_float_space temp_raw) with
                | Some x => VFloat (x / 1000)
                | None => VNone
                end]> metrics))
  /\ (exists v, parse_temperature temp_raw metrics
                = Ok (<["temperature_c" := v]> metrics)
                /\ (v = VNone \/ exists x, v = VFloat x))
  /\ parse_temperature (txt "45780") metrics
     = Ok (<["temperature_c" := VFloat 45.78]> metrics)
  /\ parse_temperature (txt "") metrics
     = Ok (<["temperature_c" := VNone]> metrics)
  /\ parse_temperature (txt "abc") metrics
     = Ok (<["temperature_c" := VNone]> metrics)
  /\ (all_b is_space temp_raw = true ->
      parse_temperature (strip temp_raw) metrics
      = Ok (<["temperature_c" := VNone]> metrics))
  /\ parse_temperature (txt "nan") metrics
     = Ok (<["temperature_c" := VFloat nan]> metrics)
  /\ parse_temperature (txt "inf") metrics
     = Ok (<["temperature_c" := VFloat infinity]> metrics)
  /\ parse_temperature (txt "-Infinity") metrics
     = Ok (<["temperature_c" := VFloat neg_infinity]> metrics).
Proof.
  split; [|split; [|split; [|split; [|split; [|split; [|split;
    [|split; [|split; [|split]]]]]]]]].
  - intros Hne Hd. apply parse_temperature_ok. now apply py_float_digits.
  - split; [apply parse_temperature_none_rejects|apply parse_temperature_none].
  - apply parse_temperature_no_digit.
  - destruct (py_float temp_raw) as [x|e] eqn:E.
    + exists (VFloat (x / 1000)). split; [|right; now eexists].
      now apply parse_temperature_ok.
    + exists VNone. split; [|now left].
      apply parse_temperature_none. congruence.
  - apply (parse_temperature_ok (txt "45780") metrics 45780). now vm_compute.
  - apply parse_temperature_none, py_float_empty.
  - apply parse_temperature_none. intros x. vm_compute. discriminate.
  - intros Hs. rewrite (strip_all_space _ Hs).
    apply parse_temperature_none, py_float_empty.
  - exact (parse_temperature_no_digit (txt "nan") metrics eq_refl).
  - exact (parse_temperature_no_digit (txt "inf") metrics eq_refl).
  - exact (parse_temperature_no_digit (txt "-Infinity") metrics eq_refl).
Qed.

Lemma temperature_millidegrees_witness :
  parse_temperature (txt "45780") ∅
  = Ok (<["temperature_c" :=
            VFloat (float_of_decimal false (digits_val (txt "45780")) 0
                    / 1000)]> ∅)
  /\ parse_temperature (txt "n/a") ∅ = Ok (<["temperature_c" := VNone]> ∅)
  /\ parse_temperature (txt "cat: no such file") ∅
     = Ok (<["temperature_c" := VNone]> ∅)
  /\ parse_temperature (txt "+NaN") ∅
     = Ok (<["temperature_c" := VFloat nan]> ∅)
  /\ parse_temperature (strip (txt "  ")) ∅
     = Ok (<["temperature_c" := VNone]> ∅).
Proof.
  split; [|split; [|split; [|split]]].
  - destruct (temperature_millidegrees (txt "45780") ∅) as (H & _).
    apply H; [discriminate | reflexivity].
  - destruct (temperature_millidegrees (txt "n/a") ∅) as (_ & H & _).
    apply (proj2 H). intros x. vm_compute. discriminate.
  - destruct (temperature_millidegrees (txt "cat: no such file") ∅)
      as (_ & _ & H & _).
    exact (H eq_refl).
  - destruct (temperature_millidegrees (txt "+NaN") ∅) as (_ & _ & H & _).
    exact (H eq_refl).
  - destruct (temperature_millidegrees (txt "  ") ∅)
      as (_ & _ & _ & _ & _ & _ & _ & H & _).
    apply H. reflexivity.
Defined.

(** Text that is no number and does not give [None]: ["nan"] has no digit,
    [float] accepts it, and the field is the float NaN; likewise ["inf"]
    gives infinity. *)
Lemma temperature_nan_counterexample :
  existsb is_digit (txt "nan") = false
  /\ parse_temperature (txt "nan") ∅
     = Ok (<["temperature_c" := VFloat nan]> ∅)
  /\ parse_temperature (txt "nan") ∅
     <> Ok (<["temperature_c" := VNone]> ∅)
  /\ parse_temperature (txt "inf") ∅
     <> Ok (<["temperature_c" := VNone]> ∅).
Proof.
  split; [reflexivity|].
  split; [exact (parse_temperature_no_digit (txt "nan") ∅ eq_refl)|].
  split; intros H.
  - apply (parse_temperature_none_rejects _ _ H nan). now vm_compute.
  - apply (parse_temperature_none_rejects _ _ H infinity). now vm_compute.
Qed.

(** C10: any text [float] accepts is used, not only integer text: when
    [float(temp_raw)] is [x] the field is [x / 1000.0]; for ["45.5"] that is
    [45.5 / 1000.0], the float 0.0455, and not [None]. *)
Theorem temperature_accepts_fractional (temp_raw : text) (metrics : dict)
  (x : float) :
  py_float temp_raw = Ok x ->
  parse_temperature temp_raw metrics
  = Ok (<["temperature_c" := VFloat (x / 1000)]> metrics)
  /\ py_float (txt "45.5") = Ok 45.5%float
  /\ parse_temperature (txt "45.5") metrics
     = Ok (<["temperature_c" := VFloat (45.5 / 1000)]> metrics)
  /\ (45.5 / 1000 = 0.0455)%float.
Proof.
  intros H. split; [now apply parse_temperature_ok|].
  split; [now vm_compute|].
  split; [|now vm_compute].
  apply parse_temperature_ok. now vm_compute.
Qed.

Lemma temperature_accepts_fractional_witness :
  parse_temperature (txt "45.5") ∅
  = Ok (<["temperature_c" := VFloat (45.5 / 1000)]> ∅).
Proof.
  destruct (temperature_accepts_fractional (txt "45.5") ∅ 45.5) as (H & _).
  - vm_compute. reflexivity.
  - exact H.
Defined.

(** ** [split]: the three equations that determine it *)

Lemma split_from_run (cur tok s : text) :
  no_space tok = true -> split_from cur (tok ++ s) = split_from (cur ++ tok) s.
Proof.
  revert cur. induction tok as [|c tok IH]; intros cur H; simpl.
  - now rewrite app_nil_r.
  - simpl in H. apply andb_true_iff in H as [Hc H].
    apply negb_true_iff in Hc. rewrite Hc, (IH _ H).
    now rewrite <- app_assoc.
Qed.

(** Leading whitespace is skipped. *)
Lemma split_skip (ws s : text) :
  all_b is_space ws = true -> split (ws ++ s) = split s.
Proof.
  unfold split. induction ws as [|c ws IH]; simpl; [reflexivity|].
  intros H. apply andb_true_iff in H as [-> H]. now apply IH.
Qed.

(** A non-empty run without whitespace, ended by a whitespace character,
    is the next token. *)
Lemma split_token (tok : text) (c : ascii) (s : text) :
  tok <> [] -> no_space tok = true -> is_space c = true ->
  split (tok ++ c :: s) = tok :: split s.
Proof.
  intros Hne Ht Hc. unfold split. rewrite (split_from_run [] tok _ Ht).
  simpl. rewrite Hc. now destruct tok.
Qed.

(** A non-empty run without whitespace that ends the text is the last
    token. *)
Lemma split_last (tok : text) :
  tok <> [] -> no_space tok = true -> split tok = [tok].
Proof.
  intros Hne Ht. unfold split.
  rewrite <- (app_nil_r tok) at 1. rewrite (split_from_run [] tok [] Ht).
  simpl. now destruct tok.
Qed.

(** ** Load average (lines 69 to 76) *)

(** C9: the load-average text is split on whitespace; with at least three
    tokens the first three, read by [float], become [cpu_load_1m],
    [cpu_load_5m] and [cpu_load_15m]; with fewer than three tokens all
    three are [None]. ["0.15 0.22 0.10 1/241 12345"] has five tokens and
    gives 0.15, 0.22 and 0.10. *)
Theorem load_average_parsing (loadavg_out : text) (metrics : dict) :
  (forall t0 t1 t2 rest l1 l5 l15,
      split loadavg_out = t0 :: t1 :: t2 :: rest ->
      py_float t0 = Ok l1 -> py_float t1 = Ok l5 -> py_float t2 = Ok l15 ->
      parse_load loadavg_out metrics
      = Ok (<["cpu_load_15m" := VFloat l15]>
              (<["cpu_load_5m" := VFloat l5]>
                 (<["cpu_load_1m" := VFloat l1]> metrics))))
  /\ ((length (split loadavg_out) < 3)%nat ->
      parse_load loadavg_out metrics
      = Ok (<["cpu_load_1m" := VNone]>
              (<["cpu_load_5m" := VNone]>
                 (<["cpu_load_15m" := VNone]> metrics))))
  /\ split (txt "0.15 0.22 0.10 1/241 12345")
     = [txt "0.15"; txt "0.22"; txt "0.10"; txt "1/241"; txt "12345"]
  /\ parse_load (txt "0.15 0.22 0.10 1/241 12345") metrics
     = Ok (<["cpu_load_15m" := VFloat 0.10]>
             (<["cpu_load_5m" := VFloat 0.22]>
                (<["cpu_load_1m" := VFloat 0.15]> metrics))).
Proof.
  assert (G : forall s t0 t1 t2 rest l1 l5 l15,
             split s = t0 :: t1 :: t2 :: rest ->
             py_float t0 = Ok l1 -> py_float t1 = Ok l5 ->
             py_float t2 = Ok l15 ->
             parse_load s metrics
             = Ok (<["cpu_load_15m" := VFloat l15]>
                     (<["cpu_load_5m" := VFloat l5]>
                        (<["cpu_load_1m" := VFloat l1]> metrics)))).
  { intros s t0 t1 t2 rest l1 l5 l15 Hs H0 H1 H2.
    unfold parse_load. rewrite Hs. cbn [length Nat.leb].
    unfold index. cbn [lookup list_lookup rbind].
    rewrite H0. cbn [rbind]. rewrite H1. cbn [rbind]. rewrite H2.
    reflexivity. }
  split; [exact (G loadavg_out)|].
  split; [|split].
  - intros Hlen. unfold parse_load.
    destruct (Nat.leb_spec 3 (length (split loadavg_out))); [lia|reflexivity].
  - now vm_compute.
  - apply (G _ (txt "0.15") (txt "0.22") (txt "0.10")
             [txt "1/241"; txt "12345"]); now vm_compute.
Qed.

Lemma load_average_parsing_witness :
  parse_load (txt "1.50 0.75 0.25") ∅
  = Ok (<["cpu_load_15m" := VFloat 0.25]>
          (<["cpu_load_5m" := VFloat 0.75]>
             (<["cpu_load_1m" := VFloat 1.5]> ∅)))
  /\ parse_load (txt "0.15 0.22") ∅
     = Ok (<["cpu_load_1m" := VNone]>
             (<["cpu_load_5m" := VNone]> (<["cpu_load_15m" := VNone]> ∅))).
Proof.
  split.
  - destruct (load_average_parsing (txt "1.50 0.75 0.25") ∅) as (H & _).
    apply (H (txt "1.50") (txt "0.75") (txt "0.25") []);
      vm_compute; reflexivity.
  - destruct (load_average_parsing (txt "0.15 0.22") ∅) as (_ & H & _).
    apply H. vm_compute. lia.
Defined.

(** ** Memory (lines 58 to 67) *)

Lemma parse_memory_lines_first (before : list text) (line : text)
  (after : list text) (metrics : dict) :
  forallb (fun l => negb (is_mem_row l)) before = true ->
  is_mem_row line = true ->
  parse_memory_lines (before ++ line :: after) metrics
  = parse_mem_line line metrics.
Proof.
  unfold is_mem_row. intros Hb Hl.
  induction before as [|l before IH]; cbn [app parse_memory_lines].
  - now rewrite Hl.
  - cbn [forallb] in Hb. apply andb_true_iff in Hb as [H1 Hb].
    apply negb_true_iff in H1. rewrite H1. now apply IH.
Qed.

Lemma parse_memory_lines_none (lines : list text) (metrics : dict) :
  forallb (fun l => negb (is_mem_row l)) lines = true ->
  parse_memory_lines lines metrics
  = Ok (<["mem_free_mb" := VNone]> (<["mem_total_mb" := VNone]> metrics)).
Proof.
  unfold is_mem_row.
  induction lines as [|l lines IH]; cbn [parse_memory_lines forallb];
    [reflexivity|].
  intros H. apply andb_true_iff in H as [H1 H].
  apply negb_true_iff in H1. rewrite H1. now apply IH.
Qed.

Lemma parse_mem_line_ok (line : text) (metrics : dict)
  (p1 pf : text) (total free : float) :
  split line !! 1%nat = Some p1 -> py_float p1 = Ok total ->
  split line !! free_field (split line) = Some pf -> py_float pf = Ok free ->
  parse_mem_line line metrics
  = Ok (<["mem_free_mb" := VFloat free]>
          (<["mem_total_mb" := VFloat total]> metrics)).
Proof.
  unfold parse_mem_line, free_field, index. intros H1 F1 Hf Ff.
  rewrite H1. cbn [rbind]. rewrite F1. cbn [rbind].
  destruct (7 <=? length (split line))%nat;
    rewrite Hf; cbn [rbind]; rewrite Ff; reflexivity.
Qed.

(** C3, as the code has it: the first line starting with ["Mem:"] is split
    on whitespace, [mem_total_mb] is its 2nd field and [mem_free_mb] its 7th
    field when the row has at least 7 fields, else its 4th, each read by
    [float], whenever the row has the fields used and they are numeric;
    with no such line both are [None]. The label ["Mem:"] is the 1st field,
    so the row ["Mem: 1837 900 50 30 5 100 700"] has 8 fields and gives
    1837.0 and 100.0, and ["Mem: 1837 900 937"] has 4 and gives 937.0. *)
Theorem memory_parsing (free_out : text) (metrics : dict) :
  (forall before line after p1 pf total free,
      splitlines free_out = before ++ line :: after ->
      forallb (fun l => negb (is_mem_row l)) before = true ->
      is_mem_row line = true ->
      split line !! 1%nat = Some p1 -> py_float p1 = Ok total ->
      split line !! free_field (split line) = Some pf ->
      py_float pf = Ok free ->
      parse_memory free_out metrics
      = Ok (<["mem_free_mb" := VFloat free]>
              (<["mem_total_mb" := VFloat total]> metrics)))
  /\ (forallb (fun l => negb (is_mem_row l)) (splitlines free_out) = true ->
      parse_memory free_out metrics
      = Ok (<["mem_free_mb" := VNone]>
              (<["mem_total_mb" := VNone]> metrics)))
  /\ split (txt "Mem: 1837 900 50 30 5 100 700")
     = [txt "Mem:"; txt "1837"; txt "900"; txt "50"; txt "30"; txt "5";
        txt "100"; txt "700"]
  /\ parse_memory (txt "Mem: 1837 900 50 30 5 100 700") metrics
     = Ok (<["mem_free_mb" := VFloat 100]>
             (<["mem_total_mb" := VFloat 1837]> metrics))
  /\ parse_memory (txt "Mem: 1837 900 937") metrics
     = Ok (<["mem_free_mb" := VFloat 937]>
             (<["mem_total_mb" := VFloat 1837]> metrics)).
Proof.
  assert (G : forall s before line after p1 pf total free,
             splitlines s = before ++ line :: after ->
             forallb (fun l => negb (is_mem_row l)) before = true ->
             is_mem_row line = true ->
             split line !! 1%nat = Some p1 -> py_float p1 = Ok total ->
             split line !! free_field (split line) = Some pf ->
             py_float pf = Ok free ->
             parse_memory s metrics
             = Ok (<["mem_free_mb" := VFloat free]>
                     (<["mem_total_mb" := VFloat total]> metrics))).
  { intros s before line after p1 pf total free Hs Hb Hl H1 F1 Hf Ff.
    unfold parse_memory. rewrite Hs, (parse_memory_lines_first _ _ _ _ Hb Hl).
    now apply (parse_mem_line_ok line metrics p1 pf). }
  split; [exact (G free_out)|].
  split; [|split; [|split]].
  - intros H. unfold parse_memory. now apply parse_memory_lines_none.
  - now vm_compute.
  - apply (G _ [] (txt "Mem: 1837 900 50 30 5 100 700") []
             (txt "1837") (txt "100")); now vm_compute.
  - apply (G _ [] (txt "Mem: 1837 900 937") [] (txt "1837") (txt "937"));
      now vm_compute.
Qed.

Lemma memory_parsing_witness :
  parse_memory (txt "Mem: 924 210 88 12 626 640") ∅
  = Ok (<["mem_free_mb" := VFloat 640]> (<["mem_total_mb" := VFloat 924]> ∅))
  /\ parse_memory (txt "Swap: 0 0 0") ∅
     = Ok (<["mem_free_mb" := VNone]> (<["mem_total_mb" := VNone]> ∅)).
Proof.
  split.
  - destruct (memory_parsing (txt "Mem: 924 210 88 12 626 640") ∅)
      as (H & _).
    apply (H [] (txt "Mem: 924 210 88 12 626 640") [] (txt "924") (txt "640"));
      vm_compute; reflexivity.
  - destruct (memory_parsing (txt "Swap: 0 0 0") ∅) as (_ & H & _).
    apply H. vm_compute. reflexivity.
Defined.

(** Python's [==] on floats is [PrimFloat.eqb]; floats it tells apart are
    different, a NaN aside. *)
Lemma float_neq (x y : float) :
  PrimFloat.eqb x y = false -> PrimFloat.eqb y y = true -> x <> y.
Proof. intros H1 H2 E. subst y. congruence. Qed.

(** The row of the example gives 100.0 for [mem_free_mb], not 700.0: its
    7th field is ["100"]. And a row of three fields does not give two
    [None]s: reading its 4th field raises. *)
Lemma memory_example_counterexample :
  ~ (exists d, parse_memory (txt "Mem: 1837 900 50 30 5 100 700") ∅ = Ok d
               /\ d !! "mem_free_mb"%string = Some (VFloat 700))
  /\ parse_memory (txt "Mem: 1837 900") ∅
     = Raise (IndexError (txt "list index out of range")).
Proof.
  split; [|now vm_compute].
  intros (d & Hd & Hf).
  destruct (memory_parsing (txt "") ∅) as (_ & _ & _ & E & _).
  rewrite E in Hd. injection Hd as <-.
  rewrite lookup_insert_eq in Hf.
  apply (f_equal (fun o => match o with
                           | Some (VFloat x) => x
                           | _ => 0%float
                           end)) in Hf.
  revert Hf. apply float_neq; reflexivity.
Qed.

(** ** Disk (lines 51 to 56) *)

Lemma all_b_nonempty_head {A} (p q : A -> bool) (l r : list A) :
  (forall x, p x = true -> q x = false) ->
  l <> [] -> all_b p l = true ->
  match l ++ r with [] => True | x :: _ => q x = false end.
Proof.
  intros H Hne Hl. destruct l as [|x l]; [congruence|].
  simpl in *. apply andb_true_iff in Hl as [Hx _]. now apply H.
Qed.

Lemma match_disk_at_spec (s g : text) :
  match_disk_at s = Some g <-> disk_pattern s g.
Proof.
  split.
  - unfold match_disk_at. intros H.
    pose proof (span_app is_space s) as A1.
    pose proof (span_fst_all is_space s) as S1.
    destruct (span is_space s) as [ws r1]. simpl in A1, S1.
    pose proof (span_app is_digit r1) as A2.
    pose proof (span_fst_all is_digit r1) as S2.
    destruct (span is_digit r1) as [ds r2]. simpl in A2, S2.
    destruct ws as [|w ws]; [discriminate|].
    destruct ds as [|d ds]; [discriminate|].
    destruct r2 as [|c r3]; [discriminate|].
    destruct (ascii_eqb c "%"%char) eqn:Ec; [|discriminate].
    apply ascii_eqb_spec in Ec. subst c.
    pose proof (span_app is_space r3) as A3.
    pose proof (span_fst_all is_space r3) as S3.
    destruct (span is_space r3) as [ws2 r4]. simpl in A3, S3.
    destruct ws2 as [|w2 ws2]; [discriminate|].
    destruct r4 as [|c2 r5]; [discriminate|].
    destruct (ascii_eqb c2 "/"%char) eqn:Ec2; [|discriminate].
    apply ascii_eqb_spec in Ec2. subst c2.
    injection H as <-.
    exists (w :: ws), (w2 :: ws2), r5.
    repeat split; try discriminate; try assumption.
    now rewrite <- A1, <- A2, <- A3.
  - intros (ws1 & ws2 & rest & -> & N1 & S1 & Ng & Sg & N2 & S2).
    unfold match_disk_at.
    rewrite (span_run is_space ws1 _ S1);
      [|apply (all_b_nonempty_head is_digit); auto using digit_not_space].
    rewrite (span_run is_digit g _ Sg); [|reflexivity].
    destruct ws1 as [|w ws1]; [congruence|].
    destruct g as [|d g]; [congruence|].
    rewrite ascii_eqb_refl.
    rewrite (span_run is_space ws2 _ S2); [|reflexivity].
    destruct ws2 as [|w2 ws2]; [congruence|].
    now rewrite ascii_eqb_refl.
Qed.

(** [re_search_disk] finds nothing exactly when the pattern matches at no
    position. *)
Lemma re_search_disk_none (s : text) :
  re_search_disk s = None <-> forall a b, s = a ++ b -> match_disk_at b = None.
Proof.
  induction s as [|c s IH].
  - split; [|reflexivity].
    intros _ a b E. symmetry in E. now apply app_eq_nil in E as [_ ->].
  - cbn [re_search_disk]. split.
    + intros H a b E. destruct (match_disk_at (c :: s)) eqn:M; [discriminate|].
      destruct a as [|x a]; simpl in E.
      * now subst b.
      * injection E as _ E. now apply (proj1 IH H a b).
    + intros H. rewrite (H [] (c :: s) eq_refl).
      apply IH. intros a b E. apply (H (c :: a) b). now rewrite E.
Qed.

(** What [re_search_disk] finds is the group of a match of the pattern
    somewhere in the text, and no match starts further left. *)
Lemma re_search_disk_some (s g : text) :
  re_search_disk s = Some g ->
  exists pre rest,
    s = pre ++ rest /\ disk_pattern rest g
    /\ forall a b, pre = a ++ b -> b <> [] -> match_disk_at (b ++ rest) = None.
Proof.
  induction s as [|c s IH]; cbn [re_search_disk].
  - intros H. vm_compute in H. discriminate.
  - destruct (match_disk_at (c :: s)) eqn:M.
    + intros [= ->]. exists [], (c :: s). repeat split.
      * now apply match_disk_at_spec.
      * intros a b E. symmetry in E. now apply app_eq_nil in E as [_ ->].
    + intros H. destruct (IH H) as (pre & rest & -> & P & L).
      exists (c :: pre), rest. repeat split; [assumption|].
      intros a b E Hb. destruct a as [|x a]; simpl in E.
      * subst b. exact M.
      * injection E as _ E. now apply (L a b).
Qed.

(** The first occurrence of a character splits a text in one way only. *)
Lemma first_occurrence_unique (c : ascii) (a a' r r' : text) :
  existsb (ascii_eqb c) a = false -> existsb (ascii_eqb c) a' = false ->
  a ++ c :: r = a' ++ c :: r' -> a = a' /\ r = r'.
Proof.
  revert a'. induction a as [|x a IH]; intros [|y a'] Ha Ha' E; simpl in *.
  - injection E as <-. now split.
  - injection E as <- _. now rewrite ascii_eqb_refl in Ha'.
  - injection E as -> _. now rewrite ascii_eqb_refl in Ha.
  - injection E as <- E.
    apply orb_false_iff in Ha as [_ Ha]. apply orb_false_iff in Ha' as [_ Ha'].
    destruct (IH a' Ha Ha' E) as [-> ->]. now split.
Qed.

Lemma all_b_no_char {A} (p : A -> bool) (q : A -> bool) (l : list A) :
  (forall x, p x = true -> q x = false) ->
  all_b p l = true -> existsb q l = false.
Proof.
  intros H. induction l as [|x l IH]; simpl; [reflexivity|].
  intros Hl. apply andb_true_iff in Hl as [Hx Hl].
  now rewrite (H x Hx), (IH Hl).
Qed.

Lemma space_not_percent c : is_space c = true -> ascii_eqb "%"%char c = false.
Proof.
  intros H. destruct (ascii_eqb "%"%char c) eqn:E; [|reflexivity].
  apply ascii_eqb_spec in E. subst c. discriminate.
Qed.

Lemma digit_not_percent c : is_digit c = true -> ascii_eqb "%"%char c = false.
Proof.
  intros H. destruct (ascii_eqb "%"%char c) eqn:E; [|reflexivity].
  apply ascii_eqb_spec in E. subst c. discriminate.
Qed.

(** A run of whitespace followed by a run of digits ends in one way only
    with a given whitespace character and digits. *)
Lemma space_digit_suffix (ws ds b d : text) (sp : ascii) :
  all_b is_space ws = true -> all_b is_digit ds = true -> ds <> [] ->
  is_space sp = true -> all_b is_digit d = true ->
  ws ++ ds = b ++ sp :: d -> ds = d.
Proof.
  intros Hws Hds Hne Hsp Hd E.
  apply (f_equal (@rev ascii)) in E.
  rewrite rev_app_distr in E.
  replace (rev (b ++ sp :: d)) with (rev d ++ sp :: rev b) in E.
  2:{ rewrite rev_app_distr. simpl. now rewrite <- app_assoc. }
  apply (f_equal (span is_digit)) in E.
  rewrite (span_run is_digit (rev ds) (rev ws)) in E.
  - rewrite (span_run is_digit (rev d) (sp :: rev b)) in E.
    + injection E as E _. apply (f_equal (@rev ascii)) in E.
      now rewrite !rev_involutive in E.
    + now rewrite all_b_rev.
    + destruct (is_digit sp) eqn:D; [|reflexivity].
      apply digit_not_space in D. congruence.
  - now rewrite all_b_rev.
  - apply (all_b_head is_space).
    + intros x Hx. destruct (is_digit x) eqn:D; [|reflexivity].
      apply digit_not_space in D. congruence.
    + now rewrite all_b_rev.
Qed.

Lemma re_search_disk_unfold (s : text) :
  re_search_disk s
  = match match_disk_at s with
    | Some g => Some g
    | None => match s with [] => None | _ :: s' => re_search_disk s' end
    end.
Proof. now destruct s. Qed.

Lemma digit_percent_app (x : text) (d : ascii) (y : text) :
  is_digit d = true -> digit_percent (x ++ d :: "%"%char :: y) = true.
Proof.
  intros Hd. induction x as [|c x IH].
  - cbn [app digit_percent]. now rewrite Hd, ascii_eqb_refl.
  - cbn [app digit_percent]. rewrite IH. apply orb_true_r.
Qed.

Lemma first_occurrence (c : ascii) (b : text) :
  existsb (ascii_eqb c) b = true ->
  exists b1 b2, b = b1 ++ c :: b2 /\ existsb (ascii_eqb c) b1 = false.
Proof.
  induction b as [|x b IH]; [discriminate|]. cbn [existsb].
  destruct (ascii_eqb c x) eqn:E.
  - intros _. apply ascii_eqb_spec in E. subst x. now exists [], b.
  - cbn [orb]. intros H. destruct (IH H) as (b1 & b2 & -> & N).
    exists (x :: b1), b2. split; [reflexivity|]. cbn [existsb].
    now rewrite E.
Qed.

(** A match that reaches its percent sign inside [b] finds a digit
    directly before that sign there. *)
Lemma match_percent_inside (b rest g : text) :
  match_disk_at (b ++ rest) = Some g ->
  existsb (ascii_eqb "%"%char) b = true -> digit_percent b = true.
Proof.
  intros H Hb.
  apply match_disk_at_spec in H
    as (ws1 & ws2 & tl & E & N1 & S1 & Ng & Sg & N2 & S2).
  destruct (first_occurrence _ _ Hb) as (b1 & b2 & -> & Nb1).
  rewrite <- app_assoc in E. cbn [app] in E. rewrite (app_assoc ws1 g) in E.
  apply first_occurrence_unique in E as [E _]; [|exact Nb1|].
  2:{ rewrite existsb_app.
      rewrite (all_b_no_char is_space _ ws1 space_not_percent S1).
      now rewrite (all_b_no_char is_digit _ g digit_not_percent Sg). }
  destruct (exists_last Ng) as (g' & dl & ->).
  assert (Hdl : is_digit dl = true).
  { rewrite <- all_b_rev, rev_app_distr in Sg. cbn in Sg.
    now apply andb_true_iff in Sg as [Hdl _]. }
  rewrite E, <- !app_assoc. cbn [app].
  rewrite (app_assoc ws1 g'). now apply digit_percent_app.
Qed.

Section FirstPercent.
Variables (d post : text) (sp1 sp2 : ascii).
Hypothesis Hsp1 : is_space sp1 = true.
Hypothesis Hsp2 : is_space sp2 = true.
Hypothesis Hne : d <> [].
Hypothesis Hd : all_b is_digit d = true.

(** A percentage [d%] after whitespace, followed by whitespace and the
    root path. *)
Let usage : text := sp1 :: d ++ "%"%char :: sp2 :: "/"%char :: post.

Lemma match_disk_at_usage : match_disk_at usage = Some d.
Proof.
  apply match_disk_at_spec. exists [sp1], [sp2], post.
  unfold all_b. simpl. rewrite Hsp1, Hsp2.
  repeat split; try discriminate; assumption.
Qed.

(** A match that starts before the first percent sign of the text ends
    at that sign, and its group is the digits before it. *)
Lemma match_before_first_percent (b g : text) :
  existsb (ascii_eqb "%"%char) b = false ->
  match_disk_at (b ++ usage) = Some g -> g = d.
Proof.
  intros Hb H.
  apply match_disk_at_spec in H
    as (ws1 & ws2 & rest & E & N1 & S1 & Ng & Sg & N2 & S2).
  unfold usage in E.
  replace (b ++ sp1 :: d ++ "%"%char :: sp2 :: "/"%char :: post)
    with ((b ++ sp1 :: d) ++ "%"%char :: sp2 :: "/"%char :: post) in E
    by (now rewrite <- app_assoc).
  rewrite (app_assoc ws1 g) in E.
  apply first_occurrence_unique in E as [E _].
  - symmetry in E. now apply (space_digit_suffix ws1 g b d sp1).
  - rewrite existsb_app, Hb. simpl.
    rewrite (space_not_percent sp1 Hsp1). simpl.
    now apply (all_b_no_char is_digit), Hd; apply digit_not_percent.
  - rewrite existsb_app.
    rewrite (all_b_no_char is_space _ ws1 space_not_percent S1).
    now rewrite (all_b_no_char is_digit _ g digit_not_percent Sg).
Qed.

(** When no digit before the percentage is directly followed by a percent
    sign, the percentage is what the search finds. *)
Lemma re_search_first_percentage (pre : text) :
  digit_percent pre = false ->
  re_search_disk (pre ++ usage) = Some d.
Proof.
  induction pre as [|c pre IH]; intros Hp; rewrite re_search_disk_unfold.
  - simpl. now rewrite match_disk_at_usage.
  - destruct (match_disk_at ((c :: pre) ++ usage)) as [g|] eqn:M.
    + destruct (existsb (ascii_eqb "%"%char) (c :: pre)) eqn:X.
      * rewrite (match_percent_inside _ _ _ M X) in Hp. discriminate.
      * now rewrite (match_before_first_percent _ g X M).
    + cbn [app]. apply IH. cbn [digit_percent] in Hp.
      now apply orb_false_iff in Hp as [_ Hp].
Qed.
End FirstPercent.

(** A match with no match starting further left is what [re_search_disk]
    finds. *)
Lemma re_search_disk_leftmost (pre rest g : text) :
  disk_pattern rest g ->
  (forall a b g', pre = a ++ b -> b <> [] -> ~ disk_pattern (b ++ rest) g') ->
  re_search_disk (pre ++ rest) = Some g.
Proof.
  intros P. induction pre as [|c pre IH]; intros L;
    rewrite re_search_disk_unfold.
  - cbn [app]. apply match_disk_at_spec in P. now rewrite P.
  - destruct (match_disk_at ((c :: pre) ++ rest)) as [g'|] eqn:M.
    + exfalso. apply match_disk_at_spec in M.
      apply (L [] (c :: pre) g' eq_refl); [discriminate|exact M].
    + cbn [app]. apply IH. intros a b g' E Hb.
      apply (L (c :: a) b g'); [now rewrite E|exact Hb].
Qed.

(** C8, as the code has it: the disk text is searched for the leftmost
    place where whitespace, a run of digits, a percent sign, whitespace
    and a slash follow one another, and the digits found there, read as an
    integer, become [disk_root_used_pct]; the slash may begin any path,
    not only that of the root mount, so in the text of [df_two_mounts] the
    5 of [/boot] is found and not the 18 of the root mount. Text
    containing [" 18% /"] gives 18.0 when no digit before it is directly
    followed by a percent sign (the [Use%] of the header of [df -h /] is
    no such place), so the usual two-line output of [df -h /] gives 18.0.
    When the pattern matches nowhere the field is [None]; and whatever the
    text, the step returns with [None] or with the number of a match. *)
Theorem disk_parsing (df_out : text) (metrics : dict) :
  (forall pre rest g,
      df_out = pre ++ rest -> disk_pattern rest g ->
      (forall a b g', pre = a ++ b -> b <> [] ->
                      ~ disk_pattern (b ++ rest) g') ->
      parse_disk df_out metrics
      = Ok (<["disk_root_used_pct" :=
                VFloat (float_of_decimal false (digits_val g) 0)]>
              metrics))
  /\ (forall pre post,
         digit_percent pre = false ->
         df_out = pre ++ txt " 18% /" ++ post ->
         parse_disk df_out metrics
         = Ok (<["disk_root_used_pct" := VFloat 18]> metrics))
  /\ ((forall a b g, df_out = a ++ b -> ~ disk_pattern b g) ->
      parse_disk df_out metrics
      = Ok (<["disk_root_used_pct" := VNone]> metrics))
  /\ (exists v,
         parse_disk df_out metrics
         = Ok (<["disk_root_used_pct" := v]> metrics)
         /\ (v = VNone
             \/ exists pre rest g,
                 df_out = pre ++ rest /\ disk_pattern rest g
                 /\ v = VFloat (float_of_decimal false (digits_val g) 0)))
  /\ parse_disk df_example metrics
     = Ok (<["disk_root_used_pct" := VFloat 18]> metrics)
  /\ parse_disk (txt "df: /: No such file or directory") metrics
     = Ok (<["disk_root_used_pct" := VNone]> metrics)
  /\ parse_disk df_two_mounts metrics
     = Ok (<["disk_root_used_pct" := VFloat 5]> metrics).
Proof.
  split; [|split; [|split; [|split; [|split; [|split]]]]].
  - intros pre rest g -> P L. unfold parse_disk.
    rewrite (re_search_disk_leftmost pre rest g P L).
    destruct P as (_ & _ & _ & _ & _ & _ & Ng & Sg & _).
    now rewrite (py_float_digits g Ng Sg).
  - intros pre post Hp ->. unfold parse_disk.
    change (txt " 18% /" ++ post)
      with (" "%char :: txt "18" ++ "%"%char :: " "%char :: "/"%char :: post).
    assert (N : txt "18" <> []) by discriminate.
    rewrite (re_search_first_percentage (txt "18") post " " " "
               eq_refl eq_refl N eq_refl pre Hp).
    now vm_compute.
  - intros H. unfold parse_disk.
    replace (re_search_disk df_out) with (@None text); [reflexivity|].
    symmetry. apply re_search_disk_none. intros a b E.
    destruct (match_disk_at b) as [g|] eqn:M; [|reflexivity].
    apply match_disk_at_spec in M. now destruct (H a b g E).
  - unfold parse_disk. destruct (re_search_disk df_out) as [g|] eqn:E.
    + destruct (re_search_disk_some _ _ E) as (pre & rest & Es & P & _).
      pose proof P as (_ & _ & _ & _ & _ & _ & Ng & Sg & _).
      rewrite (py_float_digits g Ng Sg). cbn [rbind].
      eexists. split; [reflexivity|]. right. now exists pre, rest, g.
    + exists VNone. split; [reflexivity|now left].
  - unfold parse_disk.
    replace (re_search_disk df_example) with (Some (txt "18"))
      by (now vm_compute).
    now vm_compute.
  - unfold parse_disk.
    now replace (re_search_disk (txt "df: /: No such file or directory"))
      with (@None text) by (now vm_compute).
  - unfold parse_disk.
    replace (re_search_disk df_two_mounts) with (Some (txt "5"))
      by (now vm_compute).
    now vm_compute.
Qed.

Lemma disk_parsing_witness :
  parse_disk (txt "Use%" ++ ["010"%char]
              ++ txt "/dev/sda1 40G 9G 31G 18% / ext4") ∅
  = Ok (<["disk_root_used_pct" := VFloat 18]> ∅)
  /\ parse_disk (txt "tmpfs 100%") ∅ = Ok (<["disk_root_used_pct" := VNone]> ∅)
  /\ parse_disk (txt "a" ++ txt " 5% /boot") ∅
     = Ok (<["disk_root_used_pct" :=
               VFloat (float_of_decimal false (digits_val (txt "5")) 0)]> ∅).
Proof.
  split; [|split].
  - destruct (disk_parsing
                (txt "Use%" ++ ["010"%char]
                 ++ txt "/dev/sda1 40G 9G 31G 18% / ext4") ∅)
      as (_ & H & _).
    apply (H (txt "Use%" ++ ["010"%char] ++ txt "/dev/sda1 40G 9G 31G")
             (txt " ext4")); reflexivity.
  - destruct (disk_parsing (txt "tmpfs 100%") ∅) as (_ & _ & H & _).
    apply H. intros a b g E P. apply match_disk_at_spec in P.
    assert (N : re_search_disk (txt "tmpfs 100%") = None) by reflexivity.
    rewrite re_search_disk_none in N. rewrite (N a b E) in P. discriminate.
  - destruct (disk_parsing (txt "a" ++ txt " 5% /boot") ∅) as (H & _).
    apply (H (txt "a") (txt " 5% /boot") (txt "5")).
    + reflexivity.
    + now apply match_disk_at_spec.
    + intros a b g' E Hb P. apply match_disk_at_spec in P.
      destruct a as [|x [|y a]]; simpl in E.
      * subst b. discriminate P.
      * injection E as _ E. now subst b.
      * discriminate E.
Defined.

(** A text that contains [" 18% /"] and does not give 18.0: the pattern
    matches first at the percentage of the other mount, whose path only
    starts with a slash, and the field is 5.0. *)
Lemma disk_parsing_counterexample :
  (exists pre post, df_two_mounts = pre ++ txt " 18% /" ++ post)
  /\ parse_disk df_two_mounts ∅
     = Ok (<["disk_root_used_pct" := VFloat 5]> ∅)
  /\ parse_disk df_two_mounts ∅
     <> Ok (<["disk_root_used_pct" := VFloat 18]> ∅).
Proof.
  assert (E : parse_disk df_two_mounts ∅
              = Ok (<["disk_root_used_pct" := VFloat 5]> ∅))
    by (now vm_compute).
  split; [|split; [exact E|]].
  - exists (txt "a 5% /boot" ++ ["010"%char] ++ txt "b"), ["010"%char].
    reflexivity.
  - rewrite E. intros H.
    apply (f_equal (fun r => match r with
                             | Ok m =>
                                 match m !! "disk_root_used_pct"%string with
                                 | Some (VFloat x) => x
                                 | _ => 0%float
                                 end
                             | Raise _ => 0%float
                             end)) in H.
    rewrite !lookup_insert_eq in H.
    revert H. apply float_neq; reflexivity.
Qed.

(** ** The disk and temperature steps never raise *)

Lemma re_search_disk_digits (s g : text) :
  re_search_disk s = Some g -> g <> [] /\ all_b is_digit g = true.
Proof.
  intros H. destruct (re_search_disk_some _ _ H) as (pre & rest & _ & P & _).
  now destruct P as (_ & _ & _ & _ & _ & _ & Ng & Sg & _).
Qed.

Lemma parse_disk_shape (df_out : text) (metrics : dict) :
  exists v, optional_float v
            /\ parse_disk df_out metrics
               = Ok (<["disk_root_used_pct"%string := v]> metrics).
Proof.
  unfold parse_disk. destruct (re_search_disk df_out) as [g|] eqn:E.
  - destruct (re_search_disk_digits _ _ E) as [Ng Sg].
    rewrite (py_float_digits g Ng Sg).
    eexists. split; [right; eauto|reflexivity].
  - exists VNone. split; [now left|reflexivity].
Qed.

Lemma parse_temperature_shape (temp_raw : text) (metrics : dict) :
  exists v, optional_float v
            /\ parse_temperature temp_raw metrics
               = Ok (<["temperature_c"%string := v]> metrics).
Proof.
  destruct (py_float temp_raw) as [x|e] eqn:E.
  - exists (VFloat (x / 1000)). split; [right; now eexists|].
    now apply parse_temperature_ok.
  - exists VNone. split; [now left|].
    apply parse_temperature_none. congruence.
Qed.

(** ** When the parser returns, and what it raises otherwise *)

Lemma filled_empty : filled ∅ ∅.
Proof.
  split; [apply dom_empty_L|]. intros k v H. now rewrite lookup_empty in H.
Qed.

Lemma filled_insert (ks : gset string) (m : dict) (k : string) (v : pyval) :
  filled ks m -> optional_float v -> filled ({[k]} ∪ ks) (<[k := v]> m).
Proof.
  intros [D V] Hv. split.
  - now rewrite dom_insert_L, D.
  - intros k' v' H. destruct (decide (k = k')) as [->|N].
    + rewrite lookup_insert_eq in H. now injection H as <-.
    + rewrite lookup_insert_ne in H by assumption. now apply (V k').
Qed.

Lemma optional_float_none : optional_float VNone.
Proof. now left. Qed.

Lemma optional_float_float (x : float) : optional_float (VFloat x).
Proof. right. now exists x. Qed.

Create HintDb shape.
#[local] Hint Resolve filled_insert optional_float_none optional_float_float
  : shape.

Lemma parse_mem_line_cases (line : text) (ks : gset string) (m : dict) :
  filled ks m ->
  (mem_row_ok line = true
   /\ exists m', parse_mem_line line m = Ok m'
                 /\ filled ({["mem_free_mb"%string]}
                            ∪ ({["mem_total_mb"%string]} ∪ ks)) m')
  \/ (mem_row_ok line = false
      /\ exists e, parse_mem_line line m = Raise e /\ is_parse_error e = true).
Proof.
  intros F.
  unfold parse_mem_line, mem_row_ok, free_field, field_numeric, index,
    numeric, py_float.
  destruct (split line !! 1%nat) as [p1|]; cbn [rbind andb];
    [|right; split; [reflexivity|eexists; split; reflexivity]].
  destruct (float_syntax p1) as [total|]; cbn [rbind andb];
    [|right; split; [reflexivity|eexists; split; reflexivity]].
  destruct (7 <=? length (split line))%nat.
  - destruct (split line !! 6%nat) as [p6|]; cbn [rbind];
      [|right; split; [reflexivity|eexists; split; reflexivity]].
    destruct (float_syntax p6) as [free|]; cbn [rbind];
      [|right; split; [reflexivity|eexists; split; reflexivity]].
    left. split; [reflexivity|]. eexists. split; [reflexivity|].
    auto with shape.
  - destruct (split line !! 3%nat) as [p3|]; cbn [rbind];
      [|right; split; [reflexivity|eexists; split; reflexivity]].
    destruct (float_syntax p3) as [free|]; cbn [rbind];
      [|right; split; [reflexivity|eexists; split; reflexivity]].
    left. split; [reflexivity|]. eexists. split; [reflexivity|].
    auto with shape.
Qed.

Lemma parse_memory_cases (free_out : text) (ks : gset string) (m : dict) :
  filled ks m ->
  (mem_lines_ok (splitlines free_out) = true
   /\ exists m', parse_memory free_out m = Ok m'
                 /\ filled ({["mem_free_mb"%string]}
                            ∪ ({["mem_total_mb"%string]} ∪ ks)) m')
  \/ (mem_lines_ok (splitlines free_out) = false
      /\ exists e, parse_memory free_out m = Raise e
                   /\ is_parse_error e = true).
Proof.
  intros F. unfold parse_memory.
  induction (splitlines free_out) as [|line rest IH];
    cbn [mem_lines_ok parse_memory_lines].
  - left. split; [reflexivity|]. eexists. split; [reflexivity|].
    auto with shape.
  - unfold is_mem_row. destruct (startswith line (txt "Mem:")).
    + now apply parse_mem_line_cases.
    + exact IH.
Qed.

Lemma parse_load_cases (loadavg_out : text) (ks : gset string) (m : dict) :
  filled ks m ->
  (load_ok loadavg_out = true
   /\ exists m', parse_load loadavg_out m = Ok m'
                 /\ filled ({["cpu_load_1m"%string; "cpu_load_5m"%string;
                              "cpu_load_15m"%string]} ∪ ks) m')
  \/ (load_ok loadavg_out = false
      /\ exists e, parse_load loadavg_out m = Raise e
                   /\ is_parse_error e = true).
Proof.
  intros F.
  assert (S3 : forall (a b c : string),
             ({[a; b; c]} ∪ ks : gset string) = {[c]} ∪ ({[b]} ∪ ({[a]} ∪ ks)))
    by (intros; set_solver).
  assert (S3' : forall (a b c : string),
             ({[a; b; c]} ∪ ks : gset string) = {[a]} ∪ ({[b]} ∪ ({[c]} ∪ ks)))
    by (intros; set_solver).
  unfold parse_load, load_ok, field_numeric, index, numeric, py_float.
  destruct (3 <=? length (split loadavg_out))%nat.
  - destruct (split loadavg_out !! 0%nat) as [p0|]; cbn [rbind andb];
      [|right; split; [reflexivity|eexists; split; reflexivity]].
    destruct (float_syntax p0) as [l1|]; cbn [rbind andb];
      [|right; split; [reflexivity|eexists; split; reflexivity]].
    destruct (split loadavg_out !! 1%nat) as [p1|]; cbn [rbind andb];
      [|right; split; [reflexivity|eexists; split; reflexivity]].
    destruct (float_syntax p1) as [l5|]; cbn [rbind andb];
      [|right; split; [reflexivity|eexists; split; reflexivity]].
    destruct (split loadavg_out !! 2%nat) as [p2|]; cbn [rbind andb];
      [|right; split; [reflexivity|eexists; split; reflexivity]].
    destruct (float_syntax p2) as [l15|]; cbn [rbind andb];
      [|right; split; [reflexivity|eexists; split; reflexivity]].
    left. split; [reflexivity|]. eexists. split; [reflexivity|].
    rewrite S3. auto with shape.
  - left. split; [reflexivity|]. eexists. split; [reflexivity|].
    rewrite S3'. auto with shape.
Qed.

Lemma filled_seven (m : dict) :
  filled ({["temperature_c"%string]}
          ∪ ({["cpu_load_1m"%string; "cpu_load_5m"%string;
               "cpu_load_15m"%string]}
             ∪ ({["mem_free_mb"%string]}
                ∪ ({["mem_total_mb"%string]}
                   ∪ ({["disk_root_used_pct"%string]} ∪ ∅))))) m ->
  success_shape m.
Proof.
  intros [D V]. split; [|exact V]. rewrite D. unfold metric_keys. simpl.
  set_solver.
Qed.

(** The parser returns a success-shaped dictionary exactly on well-formed
    memory and load texts; on the others it raises [IndexError] or
    [ValueError]. *)
Lemma parse_metrics_cases (df_out free_out loadavg_out temp_raw : text) :
  (well_formed free_out loadavg_out = true
   /\ exists m, parse_metrics df_out free_out loadavg_out temp_raw = Ok m
                /\ success_shape m)
  \/ (well_formed free_out loadavg_out = false
      /\ exists e, parse_metrics df_out free_out loadavg_out temp_raw = Raise e
                   /\ is_parse_error e = true).
Proof.
  unfold parse_metrics, well_formed.
  destruct (parse_disk_shape df_out ∅) as (v1 & Hv1 & ->). cbn [rbind].
  assert (F1 : filled ({["disk_root_used_pct"%string]} ∪ ∅)
                 (<["disk_root_used_pct"%string := v1]> ∅))
    by auto using filled_empty with shape.
  destruct (parse_memory_cases free_out _ _ F1)
    as [(-> & m2 & -> & F2)|(-> & e & -> & He)]; cbn [rbind andb];
    [|right; split; [reflexivity|now exists e]].
  destruct (parse_load_cases loadavg_out _ _ F2)
    as [(-> & m3 & -> & F3)|(-> & e & -> & He)]; cbn [rbind andb];
    [|right; split; [reflexivity|now exists e]].
  destruct (parse_temperature_shape temp_raw m3) as (v4 & Hv4 & ->).
  cbn [rbind]. left. split; [reflexivity|]. eexists. split; [reflexivity|].
  apply filled_seven. auto with shape.
Qed.

(** ** One call of [get_metrics] *)

Section GetMetrics.
Variable net : nat -> remote.
Variable self : RemoteMonitor.
Variable w : world.

Let a := attempts w.

Lemma poll_run (client : nat) (w1 : world) :
  poll net client w1
  = (run_commands (net client),
     {| attempts := attempts w1;
        log := log w1 ++ map (EvExec client) (commands_run (net client)) |}).
Proof.
  unfold poll, run_commands, commands_run, mbind, exec_command, lift, emit.
  cbn [attempts log].
  destruct (on_exec (net client) "df -h /"); cbn [rbind map];
    [|reflexivity].
  destruct (on_exec (net client) "free -m"); cbn [rbind map];
    [|now rewrite <- !app_assoc].
  destruct (on_exec (net client) "cat /proc/loadavg"); cbn [rbind map];
    [|now rewrite <- !app_assoc].
  destruct (on_exec (net client) "cat /sys/class/thermal/thermal_zone0/temp");
    cbn [rbind map]; now rewrite <- !app_assoc.
Qed.

(** [get_metrics] returns what [outcome] reads off the far end of this
    attempt, and leaves the world one attempt further with the events of
    the attempt appended. *)
Lemma get_metrics_run :
  get_metrics net self w
  = (outcome (net a),
     {| attempts := S a; log := log w ++ attempt_events self a (net a) |}).
Proof.
  unfold get_metrics, try_block, _connect, outcome, attempt_events.
  fold a. destruct (on_connect (net a)) as [e|].
  - reflexivity.
  - rewrite poll_run. unfold close, tell, emit. cbn [attempts log].
    now rewrite <- !app_assoc.
Qed.
End GetMetrics.

Lemma closes_of_app (sid : nat) (e1 e2 : list event) :
  closes_of sid (e1 ++ e2) = (closes_of sid e1 + closes_of sid e2)%nat.
Proof. unfold closes_of. now rewrite List.filter_app, length_app. Qed.

Lemma closes_of_execs (sid s : nat) (cmds : list string) :
  closes_of sid (map (EvExec s) cmds) = 0%nat.
Proof. induction cmds; [reflexivity|exact IHcmds]. Qed.

(** C5: when [_connect] returned a client, whatever the commands and the
    parser then do (return, or raise inside or outside [Exception]),
    [get_metrics] calls [close] on that client exactly once, as the last
    thing it does: the events it adds are the connection, the commands
    run, and one [close] of the session at the end. *)
Theorem close_exactly_once (net : nat -> remote) (self : RemoteMonitor)
  (w : world) :
  on_connect (net (attempts w)) = None ->
  exists evs cmds,
    log (snd (get_metrics net self w)) = log w ++ evs
    /\ evs = EvConnect (attempts w) self
             :: map (EvExec (attempts w)) cmds ++ [EvClose (attempts w)]
    /\ closes_of (attempts w) evs = 1%nat
    /\ last evs = Some (EvClose (attempts w)).
Proof.
  intros Hc. rewrite get_metrics_run. cbn [snd log].
  unfold attempt_events. rewrite Hc.
  eexists. exists (commands_run (net (attempts w))).
  split; [reflexivity|]. split; [reflexivity|]. split.
  - change (EvConnect (attempts w) self :: ?l)
      with ([EvConnect (attempts w) self] ++ l).
    rewrite !closes_of_app, closes_of_execs.
    unfold closes_of. simpl. now rewrite Nat.eqb_refl.
  - rewrite app_comm_cons. apply last_snoc.
Qed.

Lemma close_exactly_once_witness :
  exists evs cmds,
    log (snd (get_metrics
                (fun _ => host_output (txt "") (txt "Mem:") (txt "") (txt ""))
                pi world0)) = log world0 ++ evs
    /\ evs = EvConnect 0 pi :: map (EvExec 0) cmds ++ [EvClose 0%nat]
    /\ closes_of 0 evs = 1%nat
    /\ last evs = Some (EvClose 0%nat).
Proof.
  apply (close_exactly_once
           (fun _ => host_output (txt "") (txt "Mem:") (txt "") (txt ""))
           pi world0).
  reflexivity.
Defined.

(** Without a client there is nothing to close. *)
Lemma no_close_without_client (net : nat -> remote) (self : RemoteMonitor)
  (w : world) (e : exn) :
  on_connect (net (attempts w)) = Some e ->
  log (snd (get_metrics net self w)) = log w ++ [EvConnect (attempts w) self].
Proof.
  intros Hc. rewrite get_metrics_run. cbn [snd log].
  unfold attempt_events. now rewrite Hc.
Qed.

(** ** The shape of what [get_metrics] returns *)

Lemma success_no_error (m : dict) :
  success_shape m -> m !! "error"%string = None.
Proof.
  intros [D _]. apply not_elem_of_dom. rewrite D.
  unfold metric_keys. simpl. set_solver.
Qed.

Lemma shapes_exclusive (m : dict) : success_shape m -> ~ failure_shape m.
Proof.
  intros S [msg ->]. apply success_no_error in S.
  now rewrite lookup_singleton_eq in S.
Qed.

Lemma healthy_outcome (r : remote) :
  healthy r -> exists m, outcome r = Ok m /\ success_shape m.
Proof.
  intros (Hc & d & f & l & t & E1 & E2 & E3 & E4 & W).
  unfold outcome, run_commands. rewrite Hc, E1, E2, E3, E4. cbn [rbind].
  destruct (parse_metrics_cases d f l (strip t))
    as [(_ & m & -> & S)|(W' & _)]; [|congruence].
  now exists m.
Qed.

Lemma down_outcome (r : remote) (e : exn) :
  on_connect r = Some e -> is_Exception e = true ->
  outcome r = Ok {["error"%string := VStr (str_of_exn e)]}.
Proof. intros Hc He. unfold outcome. rewrite Hc. cbn. now rewrite He. Qed.

(** Whatever the far end does, a snapshot that is returned has one of the
    two shapes and not the other; [get_metrics] raises only what is not an
    [Exception]. *)
Lemma outcome_shapes (r : remote) :
  match outcome r with
  | Ok m => (success_shape m /\ ~ failure_shape m)
            \/ (failure_shape m /\ ~ success_shape m)
  | Raise e => is_Exception e = false
  end.
Proof.
  assert (F : forall e, match except_Exception (Raise e) with
                        | Ok m => (success_shape m /\ ~ failure_shape m)
                                  \/ (failure_shape m /\ ~ success_shape m)
                        | Raise e => is_Exception e = false
                        end).
  { intros e. cbn. destruct (is_Exception e) eqn:E; [|exact E].
    right. assert (Fs : failure_shape {["error"%string := VStr (str_of_exn e)]})
      by (now eexists).
    split; [exact Fs|]. intros S. now apply (shapes_exclusive _ S). }
  unfold outcome. destruct (on_connect r) as [e|]; [apply F|].
  unfold run_commands.
  destruct (on_exec r "df -h /") as [d|e]; cbn [rbind]; [|apply F].
  destruct (on_exec r "free -m") as [f|e]; cbn [rbind]; [|apply F].
  destruct (on_exec r "cat /proc/loadavg") as [l|e]; cbn [rbind]; [|apply F].
  destruct (on_exec r "cat /sys/class/thermal/thermal_zone0/temp") as [t|e];
    cbn [rbind]; [|apply F].
  destruct (parse_metrics_cases d f l (strip t))
    as [(_ & m & -> & S)|(_ & e & -> & _)]; [|apply F].
  cbn. left. split; [exact S|now apply shapes_exclusive].
Qed.

(** When the snapshot has the failure shape: on a transport failure, and
    also when the host answered every command but its memory or load text
    is not well formed. *)
Lemma failure_shape_iff (r : remote) (m : dict) :
  outcome r = Ok m ->
  failure_shape m
  <-> transport_ok r = false
      \/ exists df_out free_out loadavg_out temp_out,
          on_exec r "df -h /" = Ok df_out
          /\ on_exec r "free -m" = Ok free_out
          /\ on_exec r "cat /proc/loadavg" = Ok loadavg_out
          /\ on_exec r "cat /sys/class/thermal/thermal_zone0/temp"
             = Ok temp_out
          /\ well_formed free_out loadavg_out = false.
Proof.
  assert (F : forall e, except_Exception (Raise e) = Ok m -> failure_shape m).
  { intros e. cbn. destruct (is_Exception e); [|discriminate].
    intros [= <-]. now eexists. }
  unfold outcome, transport_ok, run_commands.
  destruct (on_connect r) as [e|].
  { intros H. split; [now left|]. intros _. now apply (F e). }
  cbn [forallb].
  destruct (on_exec r "df -h /") as [d|e]; cbn [rbind andb];
    [|intros H; split; [now left|]; intros _; now apply (F e)].
  destruct (on_exec r "free -m") as [f|e]; cbn [rbind andb];
    [|intros H; split; [now left|]; intros _; now apply (F e)].
  destruct (on_exec r "cat /proc/loadavg") as [l|e]; cbn [rbind andb];
    [|intros H; split; [now left|]; intros _; now apply (F e)].
  destruct (on_exec r "cat /sys/class/thermal/thermal_zone0/temp") as [t|e];
    cbn [rbind andb];
    [|intros H; split; [now left|]; intros _; now apply (F e)].
  destruct (parse_metrics_cases d f l (strip t))
    as [(W & m' & -> & S)|(W & e & -> & _)].
  - cbn. intros [= <-]. split.
    + intros Fs. now destruct (shapes_exclusive _ S Fs).
    + intros [H|(d' & f' & l' & t' & _ & [= <-] & [= <-] & _ & W')];
        congruence.
  - intros H. split; [|intros _; now apply (F e)].
    intros _. right. now exists d, f, l, t.
Qed.

(** C1, at the inputs where it fails: with the memory text ["Mem:"], a row
    that has the label and nothing else, and the other three texts empty,
    reading the 2nd field raises [IndexError]; so does a row of three
    fields, at its 4th; and load text of three words that are not numbers
    raises [ValueError]. The parser does not return a dictionary there, and
    [get_metrics] returns the error dictionary and none of the seven
    keys. *)
Theorem parser_raises_on_malformed_rows :
  parse_metrics (txt "") (txt "Mem:") (txt "") (txt "")
  = Raise (IndexError (txt "list index out of range"))
  /\ parse_metrics (txt "") (txt "Mem: 1837 900") (txt "") (txt "")
     = Raise (IndexError (txt "list index out of range"))
  /\ parse_metrics (txt "") (txt "") (txt "a b c") (txt "")
     = Raise (ValueError (txt "could not convert string to float: 'a'"))
  /\ forall self w,
      fst (get_metrics
             (fun _ => host_output (txt "") (txt "Mem:") (txt "") (txt ""))
             self w)
      = Ok {["error"%string := VStr (txt "list index out of range")]}.
Proof.
  split; [now vm_compute|]. split; [now vm_compute|].
  split; [now vm_compute|].
  intros self w. rewrite get_metrics_run. cbn [fst]. now vm_compute.
Qed.

(** C2, at the input where it fails: the host accepts the connection and
    answers all four commands, so there is no transport failure, but its
    memory row has three fields; [get_metrics] returns the failure shape
    all the same. *)
Theorem parse_failure_gives_failure_shape :
  transport_ok short_row_host = true
  /\ forall self w,
      fst (get_metrics (fun _ => short_row_host) self w)
      = Ok {["error"%string := VStr (txt "list index out of range")]}
      /\ failure_shape {["error"%string := VStr (txt "list index out of range")]}.
Proof.
  split; [reflexivity|]. intros self w. split; [|now eexists].
  rewrite get_metrics_run. cbn [fst]. now vm_compute.
Qed.

(** ** A poll cycle *)

Section Cycle.
Variable net : nat -> remote.

Lemma poll_hosts_run (monitors : list RemoteMonitor) (w : world) :
  (forall i, (i < length monitors)%nat -> returns (net (attempts w + i))) ->
  poll_hosts net monitors w
  = (Ok tt, {| attempts := attempts w + length monitors;
               log := log w ++ hosts_events net (attempts w) monitors |}).
Proof.
  revert w. induction monitors as [|mon rest IH]; intros w H.
  - cbn. unfold mret. destruct w as [a l]. cbn.
    now rewrite Nat.add_0_r, app_nil_r.
  - cbn [poll_hosts hosts_events length]. unfold mbind at 1.
    rewrite get_metrics_run.
    destruct (H 0%nat) as [m Hm]; [cbn; lia|].
    rewrite Nat.add_0_r in Hm. unfold snapshot. rewrite Hm.
    unfold mbind, tell, emit. cbn [attempts log].
    rewrite IH.
    + cbn [attempts log]. f_equal. f_equal; [lia|].
      now rewrite <- !app_assoc.
    + intros i Hi. cbn [attempts].
      replace (S (attempts w) + i)%nat with (attempts w + S i)%nat by lia.
      apply H. cbn. lia.
Qed.

Lemma printed_app (e1 e2 : list event) :
  printed (e1 ++ e2) = printed e1 ++ printed e2.
Proof. apply omap_app. Qed.

Lemma printed_attempt (mon : RemoteMonitor) (a : nat) (r : remote) :
  printed (attempt_events mon a r) = [].
Proof.
  unfold attempt_events. destruct (on_connect r); [reflexivity|].
  cbn. rewrite printed_app. cbn.
  induction (commands_run r); [reflexivity|exact IHl].
Qed.

Lemma printed_hosts (a : nat) (monitors : list RemoteMonitor) :
  printed (hosts_events net a monitors)
  = imap (fun i mon => (label mon, hostname mon, snapshot (net (a + i))))
      monitors.
Proof.
  revert a. induction monitors as [|mon rest IH]; intros a; [reflexivity|].
  cbn [hosts_events imap]. rewrite printed_app, printed_attempt. cbn.
  rewrite Nat.add_0_r. f_equal. rewrite IH. apply imap_ext.
  intros i x _. cbn. do 3 f_equal. lia.
Qed.

(** One iteration of [while True]: header, the hosts in order, sleep. *)
Lemma poll_cycle_run (monitors : list RemoteMonitor) (w : world) :
  (forall i, (i < length monitors)%nat -> returns (net (attempts w + i))) ->
  poll_cycle net monitors w
  = (Ok tt,
     {| attempts := attempts w + length monitors;
        log := log w ++ EvPrintHeader
                        :: hosts_events net (attempts w) monitors
                        ++ [EvSleep 1] |}).
Proof.
  intros H. unfold poll_cycle, mbind, tell, emit. cbn [attempts log].
  rewrite (poll_hosts_run monitors
             {| attempts := attempts w; log := log w ++ [EvPrintHeader] |} H).
  cbn [attempts log]. now rewrite <- !app_assoc.
Qed.

Lemma printed_cycle (a : nat) (monitors : list RemoteMonitor) :
  printed (EvPrintHeader :: hosts_events net a monitors ++ [EvSleep 1])
  = imap (fun i mon => (label mon, hostname mon, snapshot (net (a + i))))
      monitors.
Proof.
  change (EvPrintHeader :: ?l) with ([EvPrintHeader] ++ l).
  rewrite !printed_app, printed_hosts. cbn. apply app_nil_r.
Qed.

(** Running one more cycle after [c] cycles that ended normally. *)
Lemma main_loop_snoc (c : nat) (monitors : list RemoteMonitor) (w0 : world) :
  main_loop net (S c) monitors w0
  = mbind (main_loop net c monitors) (fun _ => poll_cycle net monitors) w0.
Proof.
  revert w0. induction c as [|c IH]; intros w0.
  - cbn [main_loop]. unfold mbind, mret.
    destruct (poll_cycle net monitors w0) as [[[]|e] w1]; reflexivity.
  - change (main_loop net (S (S c)) monitors)
      with (mbind (poll_cycle net monitors)
              (fun _ => main_loop net (S c) monitors)).
    change (main_loop net (S c) monitors)
      with (mbind (poll_cycle net monitors)
              (fun _ => main_loop net c monitors)) at 2.
    unfold mbind.
    destruct (poll_cycle net monitors w0) as [[[]|e] w1]; [|reflexivity].
    rewrite IH. reflexivity.
Qed.

Lemma main_loop_next (c : nat) (monitors : list RemoteMonitor)
  (w0 w : world) :
  main_loop net c monitors w0 = (Ok tt, w) ->
  main_loop net (S c) monitors w0 = poll_cycle net monitors w.
Proof. intros H. rewrite main_loop_snoc. unfold mbind. now rewrite H. Qed.
End Cycle.

(** After [c] cycles that ended normally in [w], whatever happened in
    them, the next cycle prints one snapshot per monitor, in registry
    order, and each is read off what the far end does in that very
    attempt. *)
Lemma cycle_snapshots (net : nat -> remote) (c : nat)
  (monitors : list RemoteMonitor) (w0 w : world) :
  main_loop net c monitors w0 = (Ok tt, w) ->
  (forall i, (i < length monitors)%nat -> returns (net (attempts w + i)%nat)) ->
  exists w' evs,
    main_loop net (S c) monitors w0 = (Ok tt, w')
    /\ log w' = log w ++ evs
    /\ printed evs
       = imap (fun i mon =>
                 (label mon, hostname mon, snapshot (net (attempts w + i)%nat)))
           monitors.
Proof.
  intros Hc Hr. rewrite (main_loop_next net c monitors w0 w Hc).
  rewrite (poll_cycle_run net monitors w Hr).
  eexists. eexists. split; [reflexivity|]. split; [reflexivity|].
  apply printed_cycle.
Qed.

(** C4: in a cycle over [N] hosts in which host [k] cannot be connected to
    and the other hosts answer with well-formed output, [N] snapshots are
    printed, one per host in registry order; the one of host [k] is the
    error dictionary and every other one has the success shape. Nothing is
    assumed about the [c] cycles before it, so it holds after any history;
    and in any later cycle in which every host answers, host [k] included,
    all [N] snapshots have the success shape. *)
Theorem cycle_with_one_host_down (net : nat -> remote)
  (monitors : list RemoteMonitor) (c : nat) (w0 w : world) (k : nat)
  (e : exn) :
  main_loop net c monitors w0 = (Ok tt, w) ->
  (k < length monitors)%nat ->
  on_connect (net (attempts w + k)%nat) = Some e -> is_Exception e = true ->
  (forall i, (i < length monitors)%nat -> i <> k ->
             healthy (net (attempts w + i)%nat)) ->
  (exists w' evs,
      main_loop net (S c) monitors w0 = (Ok tt, w')
      /\ log w' = log w ++ evs
      /\ length (printed evs) = length monitors
      /\ forall i mon, monitors !! i = Some mon ->
           exists m, printed evs !! i = Some (label mon, hostname mon, m)
                     /\ (i = k ->
                         m = {["error"%string := VStr (str_of_exn e)]}
                         /\ failure_shape m /\ ~ success_shape m)
                     /\ (i <> k -> success_shape m /\ ~ failure_shape m))
  /\ (forall c' w2,
         (c < c')%nat ->
         main_loop net c' monitors w0 = (Ok tt, w2) ->
         (forall i, (i < length monitors)%nat ->
                    healthy (net (attempts w2 + i)%nat)) ->
         exists w3 evs,
           main_loop net (S c') monitors w0 = (Ok tt, w3)
           /\ log w3 = log w2 ++ evs
           /\ length (printed evs) = length monitors
           /\ forall i mon, monitors !! i = Some mon ->
                exists m, printed evs !! i = Some (label mon, hostname mon, m)
                          /\ success_shape m).
Proof.
  intros Hc Hk Hdown He Hup. split.
  - destruct (cycle_snapshots net c monitors w0 w Hc) as (w' & evs & R & L & P).
    { intros i Hi. destruct (decide (i = k)) as [->|N].
      - eexists. exact (down_outcome _ e Hdown He).
      - destruct (healthy_outcome _ (Hup i Hi N)) as (m & Hm & _).
        now exists m. }
    exists w', evs. split; [exact R|]. split; [exact L|]. rewrite P.
    split; [apply length_imap|].
    intros i mon Hi. rewrite list_lookup_imap, Hi. cbn.
    eexists. split; [reflexivity|]. unfold snapshot. split.
    + intros ->. rewrite (down_outcome _ e Hdown He).
      assert (F : failure_shape {["error"%string := VStr (str_of_exn e)]})
        by (now eexists).
      split; [reflexivity|]. split; [exact F|].
      intros S. now apply (shapes_exclusive _ S).
    + intros N. apply lookup_lt_Some in Hi.
      destruct (healthy_outcome _ (Hup i Hi N)) as (m & -> & S).
      split; [exact S|now apply shapes_exclusive].
  - intros c' w2 _ Hc' Hall.
    destruct (cycle_snapshots net c' monitors w0 w2 Hc')
      as (w3 & evs & R & L & P).
    { intros i Hi. destruct (healthy_outcome _ (Hall i Hi)) as (m & Hm & _).
      now exists m. }
    exists w3, evs. split; [exact R|]. split; [exact L|]. rewrite P.
    split; [apply length_imap|].
    intros i mon Hi. rewrite list_lookup_imap, Hi. cbn.
    eexists. split; [reflexivity|]. unfold snapshot.
    apply lookup_lt_Some in Hi.
    now destruct (healthy_outcome _ (Hall i Hi)) as (m & -> & S).
Qed.

Lemma flaky_net_healthy (a : nat) :
  ((a mod 3 =? 1) && (a <? 6))%nat = false -> healthy (flaky_net a).
Proof.
  intros H. unfold flaky_net. rewrite H. split; [reflexivity|].
  do 4 eexists. repeat split; reflexivity.
Qed.

Lemma cycle_with_one_host_down_witness :
  (exists w' evs,
      main_loop flaky_net 2 fleet world0 = (Ok tt, w')
      /\ log w' = log world1 ++ evs
      /\ length (printed evs) = length fleet
      /\ forall i mon, fleet !! i = Some mon ->
           exists m, printed evs !! i = Some (label mon, hostname mon, m)
                     /\ (i = 1%nat ->
                         m = {["error"%string := VStr (txt "timed out")]}
                         /\ failure_shape m /\ ~ success_shape m)
                     /\ (i <> 1%nat -> success_shape m /\ ~ failure_shape m))
  /\ (forall c' w2,
         (1 < c')%nat ->
         main_loop flaky_net c' fleet world0 = (Ok tt, w2) ->
         (forall i, (i < length fleet)%nat ->
                    healthy (flaky_net (attempts w2 + i)%nat)) ->
         exists w3 evs,
           main_loop flaky_net (S c') fleet world0 = (Ok tt, w3)
           /\ log w3 = log w2 ++ evs
           /\ length (printed evs) = length fleet
           /\ forall i mon, fleet !! i = Some mon ->
                exists m, printed evs !! i = Some (label mon, hostname mon, m)
                          /\ success_shape m).
Proof.
  assert (Hw : main_loop flaky_net 1 fleet world0 = (Ok tt, world1))
    by (vm_compute; reflexivity).
  assert (Ha : attempts world1 = 3%nat) by (vm_compute; reflexivity).
  apply (cycle_with_one_host_down flaky_net fleet 1 world0 world1 1
           (OtherException "TimeoutError" (txt "timed out")) Hw).
  - cbn. lia.
  - rewrite Ha. reflexivity.
  - reflexivity.
  - intros i Hi Hne. rewrite Ha. apply flaky_net_healthy.
    cbn in Hi. destruct i as [|[|[|i]]]; try reflexivity; [congruence|lia].
Defined.

(** ** Loading the registry (lines 100 to 121) *)

Lemma load_hosts_run (entries : list (gmap string json))
  (monitors : list RemoteMonitor) (w : world) :
  load_hosts (map JDict entries) monitors w
  = (Ok (monitors ++ map monitor_of (List.filter entry_valid entries)),
     {| attempts := attempts w;
        log := log w
               ++ map (fun d => EvPrintWarning (JDict d))
                    (List.filter (fun d => negb (entry_valid d)) entries) |}).
Proof.
  revert monitors w. induction entries as [|d entries IH]; intros monitors w.
  - cbn. unfold mret. destruct w. cbn. now rewrite !app_nil_r.
  - cbn [map load_hosts List.filter].
    unfold get, get_default, lift, mbind. fold (field d "hostname").
    fold (field d "username"). fold (field d "key_filename").
    fold (field d "password"). fold (field d "label").
    fold (monitor_of d). fold (entry_valid d).
    destruct (entry_valid d); cbn [negb].
    + rewrite IH. cbn [map]. now rewrite <- app_assoc.
    + unfold tell, emit. rewrite IH. cbn [attempts log map].
      now rewrite <- app_assoc.
Qed.

Lemma entry_valid_present (d : gmap string json) :
  entry_valid d = true ->
  present d "hostname" = true /\ present d "username" = true.
Proof.
  unfold entry_valid, present, field. intros H.
  apply andb_true_iff in H as [H1 H2].
  destruct (d !! "hostname"%string) as [[]|]; try discriminate;
    destruct (d !! "username"%string) as [[]|]; try discriminate; now split.
Qed.

(** An entry that is not a JSON object has no [get]: the loop raises
    [AttributeError] at it, and no monitor list is returned. *)
Lemma load_hosts_not_an_object (w : world) :
  load_hosts_from_json [JStr "10.0.0.7"] w
  = (Raise (OtherException "AttributeError"
              (txt "'str' object has no attribute 'get'")), w).
Proof. reflexivity. Qed.

(** C6, as the code has it: of a list of entries that are JSON objects,
    those whose [hostname] and [username] are both true values (present,
    and not null, empty, zero or false) are kept, each as the monitor built
    from its fields, in their order; for each other entry a warning is
    printed, in their order; and the loop returns: it does not raise. An
    entry that is kept has both fields present. *)
Theorem registry_loading (entries : list (gmap string json)) (w : world) :
  load_hosts_from_json (map JDict entries) w
  = (Ok (map monitor_of (List.filter entry_valid entries)),
     {| attempts := attempts w;
        log := log w
               ++ map (fun d => EvPrintWarning (JDict d))
                    (List.filter (fun d => negb (entry_valid d)) entries) |})
  /\ (forall d, entry_valid d
                = (truthy (hostname (monitor_of d))
                   && truthy (username (monitor_of d)))%bool)
  /\ (forall d, entry_valid d = true ->
                present d "hostname" = true /\ present d "username" = true).
Proof.
  split; [|split].
  - unfold load_hosts_from_json. apply load_hosts_run.
  - reflexivity.
  - apply entry_valid_present.
Qed.

(** An entry whose [hostname] is present but empty is not kept: a warning
    is printed for it. So not every entry with both fields present is
    retained. *)
Lemma registry_loading_counterexample :
  present unnamed_entry "hostname" = true
  /\ present unnamed_entry "username" = true
  /\ load_hosts_from_json [JDict unnamed_entry] world0
     = (Ok [], {| attempts := 0;
                  log := [EvPrintWarning (JDict unnamed_entry)] |}).
Proof.
  split; [reflexivity|]. split; [reflexivity|].
  unfold load_hosts_from_json. now rewrite (load_hosts_run [unnamed_entry]).
Qed.

(** * Further properties *)

(** ** The parser and the snapshot *)

(** X1: the parser returns exactly on well-formed memory and load text,
    and what it returns then has the success shape; on the other texts it
    raises [IndexError] or [ValueError]. Disk and temperature text never
    make it raise. *)
Theorem parser_returns_iff_well_formed
  (df_out free_out loadavg_out temp_raw : text) :
  match parse_metrics df_out free_out loadavg_out temp_raw with
  | Ok m => well_formed free_out loadavg_out = true /\ success_shape m
  | Raise e => well_formed free_out loadavg_out = false
               /\ is_parse_error e = true
  end.
Proof.
  destruct (parse_metrics_cases df_out free_out loadavg_out temp_raw)
    as [(W & m & -> & S)|(W & e & -> & P)]; now split.
Qed.

(** X2: whatever the far end does, a snapshot [get_metrics] returns has
    exactly one of the two shapes, never a mix of metric keys and the error
    key; and what [get_metrics] raises is never an [Exception]. *)
Theorem snapshot_shapes_never_mixed (net : nat -> remote)
  (self : RemoteMonitor) (w : world) :
  match fst (get_metrics net self w) with
  | Ok m => (success_shape m /\ ~ failure_shape m)
            \/ (failure_shape m /\ ~ success_shape m)
  | Raise e => is_Exception e = false
  end.
Proof. rewrite get_metrics_run. cbn [fst]. apply outcome_shapes. Qed.

(** X3: a returned snapshot has the failure shape exactly when the
    connection or a command failed, or every command answered and the
    memory or load text is not well formed. *)
Theorem failure_shape_exactly_when (net : nat -> remote)
  (self : RemoteMonitor) (w : world) (m : dict) :
  fst (get_metrics net self w) = Ok m ->
  failure_shape m
  <-> transport_ok (net (attempts w)) = false
      \/ exists df_out free_out loadavg_out temp_out,
          on_exec (net (attempts w)) "df -h /" = Ok df_out
          /\ on_exec (net (attempts w)) "free -m" = Ok free_out
          /\ on_exec (net (attempts w)) "cat /proc/loadavg" = Ok loadavg_out
          /\ on_exec (net (attempts w))
               "cat /sys/class/thermal/thermal_zone0/temp" = Ok temp_out
          /\ well_formed free_out loadavg_out = false.
Proof.
  rewrite get_metrics_run. cbn [fst]. apply failure_shape_iff.
Qed.

Lemma failure_shape_exactly_when_witness :
  failure_shape {["error"%string := VStr (txt "list index out of range")]}
  <-> transport_ok short_row_host = false
      \/ exists df_out free_out loadavg_out temp_out,
          on_exec short_row_host "df -h /" = Ok df_out
          /\ on_exec short_row_host "free -m" = Ok free_out
          /\ on_exec short_row_host "cat /proc/loadavg" = Ok loadavg_out
          /\ on_exec short_row_host
               "cat /sys/class/thermal/thermal_zone0/temp" = Ok temp_out
          /\ well_formed free_out loadavg_out = false.
Proof.
  apply (failure_shape_exactly_when (fun _ => short_row_host) pi world0).
  vm_compute. reflexivity.
Defined.

Lemma outcome_first_failure (r : remote) (e : exn) :
  first_failure r = Some e ->
  outcome r = if is_Exception e
              then Ok {["error"%string := VStr (str_of_exn e)]}
              else Raise e.
Proof.
  unfold first_failure, outcome, run_commands, four_commands.
  destruct (on_connect r) as [e0|]; [now intros [= ->]|].
  cbn [first_raise].
  destruct (on_exec r "df -h /"); cbn [rbind]; [|now intros [= ->]].
  destruct (on_exec r "free -m"); cbn [rbind]; [|now intros [= ->]].
  destruct (on_exec r "cat /proc/loadavg"); cbn [rbind]; [|now intros [= ->]].
  destruct (on_exec r "cat /sys/class/thermal/thermal_zone0/temp");
    cbn [rbind]; [discriminate|now intros [= ->]].
Qed.

(** X4: when the connection or a command raises, the first such exception
    [e] decides the result: if it is an [Exception] the snapshot is
    [{"error": str(e)}], otherwise [get_metrics] raises [e] itself; the
    commands after it and the parser play no part. *)
Theorem first_failure_decides (net : nat -> remote) (self : RemoteMonitor)
  (w : world) (e : exn) :
  first_failure (net (attempts w)) = Some e ->
  fst (get_metrics net self w)
  = if is_Exception e
    then Ok {["error"%string := VStr (str_of_exn e)]}
    else Raise e.
Proof.
  intros H. rewrite get_metrics_run. cbn [fst].
  now apply outcome_first_failure.
Qed.

Lemma first_failure_decides_witness :
  fst (get_metrics (fun _ => host_interrupted) pi world0) = Raise interrupt
  /\ fst (get_metrics
            (fun _ => host_down (OtherException "TimeoutError"
                                   (txt "timed out"))) pi world0)
     = Ok {["error"%string := VStr (txt "timed out")]}.
Proof.
  split.
  - apply (first_failure_decides (fun _ => host_interrupted) pi world0
             interrupt).
    reflexivity.
  - apply (first_failure_decides
             (fun _ => host_down (OtherException "TimeoutError"
                                    (txt "timed out"))) pi world0
             (OtherException "TimeoutError" (txt "timed out"))).
    reflexivity.
Defined.

(** X5: one call of [get_metrics] makes one connection attempt, never a
    second. It then runs the first [n] of the four commands in their fixed
    order on that session: none when the connection failed; otherwise at
    least one, every command before the last one run returned, and if
    fewer than four were run the last one raised. Nothing else happens
    before the session is closed. *)
Theorem commands_in_fixed_order (net : nat -> remote) (self : RemoteMonitor)
  (w : world) :
  attempts (snd (get_metrics net self w)) = S (attempts w)
  /\ exists n,
      (n <= 4)%nat
      /\ log (snd (get_metrics net self w))
         = log w
           ++ EvConnect (attempts w) self
              :: map (EvExec (attempts w)) (take n four_commands)
              ++ match on_connect (net (attempts w)) with
                 | Some _ => []
                 | None => [EvClose (attempts w)]
                 end
      /\ first_raise (net (attempts w)) (take (n - 1) four_commands) = None
      /\ match on_connect (net (attempts w)) with
         | Some _ => n = 0%nat
         | None =>
             (1 <= n)%nat
             /\ ((n < 4)%nat ->
                 exists e,
                   first_raise (net (attempts w)) (take n four_commands)
                   = Some e)
         end.
Proof.
  rewrite get_metrics_run. cbn [snd attempts log]. split; [reflexivity|].
  unfold attempt_events, commands_run, four_commands.
  destruct (on_connect (net (attempts w))) as [e0|].
  { exists 0%nat. repeat split; lia. }
  destruct (on_exec (net (attempts w)) "df -h /") as [d|e] eqn:E1.
  2:{ exists 1%nat. cbn. rewrite E1. repeat split; try lia. now exists e. }
  destruct (on_exec (net (attempts w)) "free -m") as [f|e] eqn:E2.
  2:{ exists 2%nat. cbn. rewrite E1, E2. repeat split; try lia.
      now exists e. }
  destruct (on_exec (net (attempts w)) "cat /proc/loadavg") as [l|e] eqn:E3.
  2:{ exists 3%nat. cbn. rewrite E1, E2, E3. repeat split; try lia.
      now exists e. }
  exists 4%nat. cbn. rewrite E1, E2, E3. repeat split; lia.
Qed.

Lemma insert_as_union (k : string) (v : pyval) (m : dict) :
  <[k := v]> m = <[k := v]> ∅ ∪ m.
Proof. now rewrite <- insert_union_l, (left_id_L ∅ (∪)). Qed.

Lemma insert2_as_union (k1 k2 : string) (v1 v2 : pyval) (m : dict) :
  <[k1 := v1]> (<[k2 := v2]> m) = <[k1 := v1]> (<[k2 := v2]> ∅) ∪ m.
Proof. now rewrite <- !insert_union_l, (left_id_L ∅ (∪)). Qed.

Lemma insert3_as_union (k1 k2 k3 : string) (v1 v2 v3 : pyval) (m : dict) :
  <[k1 := v1]> (<[k2 := v2]> (<[k3 := v3]> m))
  = <[k1 := v1]> (<[k2 := v2]> (<[k3 := v3]> ∅)) ∪ m.
Proof. now rewrite <- !insert_union_l, (left_id_L ∅ (∪)). Qed.

(** Each step adds its own keys to [metrics], and whether it raises does
    not depend on [metrics]. *)
Lemma parse_disk_union (df_out : text) (metrics : dict) :
  parse_disk df_out metrics
  = rbind (parse_disk df_out ∅) (fun m => Ok (m ∪ metrics)).
Proof.
  unfold parse_disk. destruct (re_search_disk df_out) as [g|].
  - destruct (py_float g); cbn [rbind]; [|reflexivity].
    now rewrite insert_as_union.
  - cbn [rbind]. now rewrite insert_as_union.
Qed.

Lemma parse_memory_union (free_out : text) (metrics : dict) :
  parse_memory free_out metrics
  = rbind (parse_memory free_out ∅) (fun m => Ok (m ∪ metrics)).
Proof.
  unfold parse_memory.
  induction (splitlines free_out) as [|line rest IH];
    cbn [parse_memory_lines].
  - cbn [rbind]. now rewrite insert2_as_union.
  - destruct (startswith line (txt "Mem:")); [|exact IH].
    unfold parse_mem_line.
    destruct (index (split line) 1); cbn [rbind]; [|reflexivity].
    destruct (py_float a); cbn [rbind]; [|reflexivity].
    destruct (7 <=? length (split line))%nat.
    + destruct (index (split line) 6); cbn [rbind]; [|reflexivity].
      destruct (py_float a1); cbn [rbind]; [|reflexivity].
      now rewrite insert2_as_union.
    + destruct (index (split line) 3); cbn [rbind]; [|reflexivity].
      destruct (py_float a1); cbn [rbind]; [|reflexivity].
      now rewrite insert2_as_union.
Qed.

Lemma parse_load_union (loadavg_out : text) (metrics : dict) :
  parse_load loadavg_out metrics
  = rbind (parse_load loadavg_out ∅) (fun m => Ok (m ∪ metrics)).
Proof.
  unfold parse_load. destruct (3 <=? length (split loadavg_out))%nat.
  - destruct (index (split loadavg_out) 0); cbn [rbind]; [|reflexivity].
    destruct (py_float a); cbn [rbind]; [|reflexivity].
    destruct (index (split loadavg_out) 1); cbn [rbind]; [|reflexivity].
    destruct (py_float a1); cbn [rbind]; [|reflexivity].
    destruct (index (split loadavg_out) 2); cbn [rbind]; [|reflexivity].
    destruct (py_float a3); cbn [rbind]; [|reflexivity].
    now rewrite insert3_as_union.
  - cbn [rbind]. now rewrite insert3_as_union.
Qed.

Lemma parse_temperature_union (temp_raw : text) (metrics : dict) :
  parse_temperature temp_raw metrics
  = rbind (parse_temperature temp_raw ∅) (fun m => Ok (m ∪ metrics)).
Proof.
  unfold parse_temperature. destruct (py_float temp_raw) as [x|[]];
    cbn [rbind]; try reflexivity; now rewrite insert_as_union.
Qed.

(** X6: the four families of fields are parsed independently: the dictionary
    returned is the union of what each step gives on its own text, and the
    parser raises what the first step that raises does, in the order disk,
    memory, load, temperature. *)
Theorem parser_steps_independent
  (df_out free_out loadavg_out temp_raw : text) :
  parse_metrics df_out free_out loadavg_out temp_raw
  = (m1 <- parse_disk df_out ∅ ;;
     m2 <- parse_memory free_out ∅ ;;
     m3 <- parse_load loadavg_out ∅ ;;
     m4 <- parse_temperature temp_raw ∅ ;;
     Ok (m4 ∪ (m3 ∪ (m2 ∪ m1))))%result.
Proof.
  unfold parse_metrics.
  destruct (parse_disk df_out ∅) as [m1|e]; cbn [rbind]; [|reflexivity].
  rewrite parse_memory_union.
  destruct (parse_memory free_out ∅) as [m2|e]; cbn [rbind]; [|reflexivity].
  rewrite parse_load_union.
  destruct (parse_load loadavg_out ∅) as [m3|e]; cbn [rbind]; [|reflexivity].
  rewrite parse_temperature_union.
  destruct (parse_temperature temp_raw ∅) as [m4|e]; cbn [rbind];
    reflexivity.
Qed.

(** ** The registry *)

Lemma init_named (h u k p po l : json) :
  (truthy h && truthy u)%bool = true -> named (init h u k p po l) = true.
Proof.
  intros H. unfold named, init. cbn [hostname username label].
  rewrite H. cbn [andb]. apply andb_true_iff in H as [Hh _].
  now destruct (truthy l) eqn:L.
Qed.

(** One turn of the loop, for an entry that is a JSON object and for one
    that is not. *)
Lemma load_hosts_object (d : gmap string json) (rest : list json)
  (acc : list RemoteMonitor) (w : world) :
  load_hosts (JDict d :: rest) acc w
  = if entry_valid d
    then load_hosts rest (acc ++ [monitor_of d]) w
    else load_hosts rest acc (emit (EvPrintWarning (JDict d)) w).
Proof.
  cbn [load_hosts]. unfold mbind, lift, get, get_default, tell.
  fold (field d "hostname"). fold (field d "username").
  fold (field d "key_filename"). fold (field d "password").
  fold (field d "label"). fold (monitor_of d). fold (entry_valid d).
  now destruct (entry_valid d).
Qed.

Lemma load_hosts_other (h : json) (rest : list json)
  (acc : list RemoteMonitor) (w : world) :
  is_object h = false ->
  load_hosts (h :: rest) acc w
  = (Raise (OtherException "AttributeError"
              (txt "'" ++ txt (type_name h)
               ++ txt "' object has no attribute 'get'")), w).
Proof. intros H. destruct h; try reflexivity. discriminate. Qed.

Lemma load_hosts_named (hosts_config : list json)
  (acc : list RemoteMonitor) (w : world) :
  forallb named acc = true ->
  match fst (load_hosts hosts_config acc w) with
  | Ok monitors => forallb named monitors = true
  | Raise _ => True
  end.
Proof.
  revert acc w. induction hosts_config as [|h rest IH]; intros acc w Hacc.
  - exact Hacc.
  - destruct (is_object h) eqn:O; [|now rewrite load_hosts_other].
    destruct h; try discriminate. rewrite load_hosts_object.
    destruct (entry_valid d) eqn:V; [|now apply IH].
    apply IH. rewrite forallb_app, Hacc. cbn [forallb].
    unfold monitor_of. now rewrite (init_named _ _ _ _ _ _ V).
Qed.

(** X7: whatever the entries are, every monitor of a registry that
    [load_hosts_from_json] returns has a host name, a user name and a
    label that are true values: none is missing, null or empty. *)
Theorem registry_monitors_named (hosts_config : list json) (w w' : world)
  (monitors : list RemoteMonitor) :
  load_hosts_from_json hosts_config w = (Ok monitors, w') ->
  forallb named monitors = true.
Proof.
  intros H. pose proof (load_hosts_named hosts_config [] w eq_refl) as N.
  unfold load_hosts_from_json in H. now rewrite H in N.
Qed.

Lemma registry_monitors_named_witness :
  forallb named
    [monitor_of (<["hostname"%string := JStr "10.0.0.7"]>
                   (<["username"%string := JStr "pi"]> ∅))] = true.
Proof.
  apply (registry_monitors_named
           [JDict unnamed_entry;
            JDict (<["hostname"%string := JStr "10.0.0.7"]>
                     (<["username"%string := JStr "pi"]> ∅))]
           world0
           {| attempts := 0;
              log := [EvPrintWarning (JDict unnamed_entry)] |}).
  vm_compute. reflexivity.
Defined.

Lemma load_hosts_quiet (hosts_config : list json)
  (acc : list RemoteMonitor) (w : world) :
  exists skipped,
    skipped `sublist_of` hosts_config
    /\ snd (load_hosts hosts_config acc w)
       = {| attempts := attempts w;
            log := log w ++ map EvPrintWarning skipped |}.
Proof.
  revert acc w. induction hosts_config as [|h rest IH]; intros acc w.
  - exists []. split; [constructor|]. destruct w. cbn.
    now rewrite app_nil_r.
  - destruct (is_object h) eqn:O.
    + destruct h; try discriminate. rewrite load_hosts_object.
      destruct (entry_valid d).
      * destruct (IH (acc ++ [monitor_of d]) w) as (sk & S & E).
        exists sk. split; [now apply sublist_cons|exact E].
      * destruct (IH acc (emit (EvPrintWarning (JDict d)) w))
          as (sk & S & E).
        exists (JDict d :: sk). split; [now apply sublist_skip|].
        rewrite E. cbn. now rewrite <- app_assoc.
    + rewrite (load_hosts_other h rest acc w O).
      exists []. split; [apply sublist_nil_l|]. destruct w. cbn.
      now rewrite app_nil_r.
Qed.

(** X8: loading the registry contacts no host: whatever the entries are,
    and whether it returns or raises, it makes no connection attempt and
    the only events it adds are warnings, each for an entry of the list,
    in the order of the list. *)
Theorem loading_only_prints_warnings (hosts_config : list json) (w : world) :
  exists skipped,
    skipped `sublist_of` hosts_config
    /\ snd (load_hosts_from_json hosts_config w)
       = {| attempts := attempts w;
            log := log w ++ map EvPrintWarning skipped |}.
Proof. apply load_hosts_quiet. Qed.

Lemma filter_lengths {A} (p : A -> bool) (l : list A) :
  (length (List.filter p l) + length (List.filter (fun x => negb (p x)) l)
   = length l)%nat.
Proof.
  induction l as [|x l IH]; [reflexivity|]. cbn [List.filter].
  destruct (p x); cbn [negb length]; lia.
Qed.

(** X9: of a list of entries that are JSON objects, every entry is
    accounted for: the number of monitors returned and the number of
    warnings printed add up to the number of entries. *)
Theorem every_entry_counted (entries : list (gmap string json)) (w : world) :
  exists monitors evs,
    load_hosts_from_json (map JDict entries) w
    = (Ok monitors, {| attempts := attempts w; log := log w ++ evs |})
    /\ (length monitors + length evs = length entries)%nat.
Proof.
  unfold load_hosts_from_json. rewrite load_hosts_run.
  eexists. eexists. split; [reflexivity|].
  cbn [app]. rewrite !length_map. apply filter_lengths.
Qed.

(** The loop over a list is the loop over its first part followed by the
    loop over the rest, with the monitors built so far passed on. *)
Lemma load_hosts_app (a b : list json) (acc : list RemoteMonitor)
  (w : world) :
  load_hosts (a ++ b) acc w
  = mbind (load_hosts a acc) (fun acc' => load_hosts b acc') w.
Proof.
  revert acc w. induction a as [|h a IH]; intros acc w; [reflexivity|].
  cbn [app]. destruct (is_object h) eqn:O.
  - destruct h; try discriminate. unfold mbind.
    rewrite !load_hosts_object. destruct (entry_valid d); apply IH.
  - unfold mbind. now rewrite !load_hosts_other.
Qed.

Lemma load_hosts_acc (l : list json) (acc : list RemoteMonitor) (w : world) :
  load_hosts l acc w
  = match load_hosts l [] w with
    | (Ok monitors, w') => (Ok (acc ++ monitors), w')
    | (Raise e, w') => (Raise e, w')
    end.
Proof.
  revert acc w. induction l as [|h l IH]; intros acc w.
  - cbn. unfold mret. now rewrite app_nil_r.
  - destruct (is_object h) eqn:O; [|now rewrite !load_hosts_other].
    destruct h; try discriminate. rewrite !load_hosts_object.
    destruct (entry_valid d); [|apply IH].
    rewrite (IH (acc ++ [monitor_of d])), (IH ([] ++ [monitor_of d])).
    destruct (load_hosts l [] w) as [[ms|e] w']; [|reflexivity].
    now rewrite <- app_assoc.
Qed.

(** X10: loading composes: the registry of a list [a ++ b] is the registry
    of [a] followed by the registry of [b], loaded in the world [a] left;
    if loading either part raises, loading the whole raises the same, and
    [b] is not touched when [a] raised. *)
Theorem loading_composes (a b : list json) (w : world) :
  load_hosts_from_json (a ++ b) w
  = match load_hosts_from_json a w with
    | (Ok monitors_a, w1) =>
        match load_hosts_from_json b w1 with
        | (Ok monitors_b, w2) => (Ok (monitors_a ++ monitors_b), w2)
        | (Raise e, w2) => (Raise e, w2)
        end
    | (Raise e, w1) => (Raise e, w1)
    end.
Proof.
  unfold load_hosts_from_json. rewrite load_hosts_app. unfold mbind.
  destruct (load_hosts a [] w) as [[ms|e] w1]; [|reflexivity].
  apply load_hosts_acc.
Qed.

(** X11: an entry that is not a JSON object stops the loading: after a
    run of object entries, such an entry makes [load_hosts_from_json] raise
    [AttributeError]; the warnings for the invalid entries before it were
    printed, the monitors built before it are not returned, and the entries
    after it are not looked at. *)
Theorem non_object_entry_aborts (entries : list (gmap string json))
  (h : json) (rest : list json) (w : world) :
  is_object h = false ->
  load_hosts_from_json (map JDict entries ++ h :: rest) w
  = (Raise (OtherException "AttributeError"
              (txt "'" ++ txt (type_name h)
               ++ txt "' object has no attribute 'get'")),
     {| attempts := attempts w;
        log := log w
               ++ map (fun d => EvPrintWarning (JDict d))
                    (List.filter (fun d => negb (entry_valid d)) entries) |}).
Proof.
  intros H. unfold load_hosts_from_json.
  rewrite load_hosts_app. unfold mbind. rewrite load_hosts_run.
  now rewrite load_hosts_other.
Qed.

Lemma non_object_entry_aborts_witness :
  load_hosts_from_json
    (map JDict [unnamed_entry] ++ JStr "10.0.0.7" :: [JNull]) world0
  = (Raise (OtherException "AttributeError"
              (txt "'" ++ txt (type_name (JStr "10.0.0.7"))
               ++ txt "' object has no attribute 'get'")),
     {| attempts := attempts world0;
        log := log world0
               ++ map (fun d => EvPrintWarning (JDict d))
                    (List.filter (fun d => negb (entry_valid d))
                       [unnamed_entry]) |}).
Proof.
  apply (non_object_entry_aborts [unnamed_entry] (JStr "10.0.0.7") [JNull]
           world0).
  reflexivity.
Defined.

(** X12: what a kept entry leaves out is defaulted: without a ["port"] key
    the port is 22, but a ["port"] that is present is taken as it is, null
    included; a label that is missing, null or empty is replaced by the
    host name; a missing key file or password is [None]. *)
Theorem entry_defaults (d : gmap string json) (w : world) :
  entry_valid d = true ->
  exists mon,
    load_hosts_from_json [JDict d] w = (Ok [mon], w)
    /\ hostname mon = field d "hostname"
    /\ username mon = field d "username"
    /\ port mon = match d !! "port"%string with
                  | Some v => v
                  | None => JInt 22
                  end
    /\ (truthy (field d "label") = false -> label mon = hostname mon)
    /\ (truthy (field d "label") = true -> label mon = field d "label")
    /\ (d !! "key_filename"%string = None -> key_filename mon = JNull)
    /\ (d !! "password"%string = None -> password mon = JNull).
Proof.
  intros V. exists (monitor_of d). unfold load_hosts_from_json.
  rewrite load_hosts_object, V. cbn [load_hosts app]. unfold mret.
  split; [reflexivity|]. unfold monitor_of, init.
  cbn [hostname username port label key_filename password].
  repeat split.
  - now intros ->.
  - now intros ->.
  - unfold field. now intros ->.
  - unfold field. now intros ->.
Qed.

Lemma entry_defaults_witness :
  exists mon,
    load_hosts_from_json
      [JDict (<["hostname"%string := JStr "10.0.0.7"]>
                (<["username"%string := JStr "pi"]>
                   (<["port"%string := JNull]> ∅)))] world0
    = (Ok [mon], world0)
    /\ port mon = JNull /\ label mon = JStr "10.0.0.7".
Proof.
  destruct (entry_defaults
              (<["hostname"%string := JStr "10.0.0.7"]>
                 (<["username"%string := JStr "pi"]>
                    (<["port"%string := JNull]> ∅))) world0)
    as (mon & E & Hh & _ & Hp & Hl & _); [reflexivity|].
  exists mon. split; [exact E|]. split; [exact Hp|].
  rewrite Hl; [exact Hh|reflexivity].
Defined.

Lemma load_hosts_strs (l : list json) (acc : list RemoteMonitor)
  (w : world) :
  forallb (fun v => negb (is_object v)) l = true ->
  load_hosts l acc w = (Ok acc, w)
  \/ exists e, load_hosts l acc w = (Raise e, w).
Proof.
  destruct l as [|h l]; [now left|]. cbn [forallb]. intros H.
  apply andb_true_iff in H as [H _]. apply negb_true_iff in H.
  right. rewrite (load_hosts_other h l acc w H). now eexists.
Qed.

Lemma iterate_not_list (v : json) (items : list json) :
  (forall l, v <> JList l) -> iterate v = Ok items ->
  forallb (fun x => negb (is_object x)) items = true.
Proof.
  intros N. destruct v; cbn [iterate]; try discriminate.
  - intros [= <-]. induction (list_ascii_of_string s); [reflexivity|].
    exact IHl.
  - now destruct (N l).
  - intros [= <-]. induction (map_to_list d); [reflexivity|]. exact IHl.
Qed.

(** X13: from the parsed document: when it is an object without a
    ["hosts"] key the registry is empty and nothing is printed or raised;
    and a registry with a monitor in it is only ever returned for an object
    whose ["hosts"] is a list, for which it is the registry of that list
    (a string or an object in its place gives an empty registry or
    [AttributeError], never a monitor). *)
Theorem registry_from_document (data : json) (w : world) :
  (forall d, data = JDict d -> d !! "hosts"%string = None ->
             load_hosts_from_data data w = (Ok [], w))
  /\ (forall mon monitors w',
         load_hosts_from_data data w = (Ok (mon :: monitors), w') ->
         exists d l,
           data = JDict d /\ d !! "hosts"%string = Some (JList l)
           /\ load_hosts_from_json l w = (Ok (mon :: monitors), w')).
Proof.
  split.
  - intros d -> H. unfold load_hosts_from_data, mbind, lift, get_default.
    now rewrite H.
  - intros mon monitors w'.
    unfold load_hosts_from_data, mbind, lift, get_default.
    destruct data; try discriminate.
    destruct (d !! "hosts"%string) as [v|] eqn:Hv; [|discriminate].
    destruct (iterate v) as [items|e] eqn:I; [|discriminate].
    destruct v; try discriminate.
    + intros H. pose proof (iterate_not_list (JStr s) items) as N.
      destruct (load_hosts_strs items [] w) as [E|(e & E)].
      * apply N; [discriminate|exact I].
      * unfold load_hosts_from_json in H. congruence.
      * unfold load_hosts_from_json in H. congruence.
    + injection I as <-. intros H. now exists d, l.
    + intros H. pose proof (iterate_not_list (JDict d0) items) as N.
      destruct (load_hosts_strs items [] w) as [E|(e & E)].
      * apply N; [discriminate|exact I].
      * unfold load_hosts_from_json in H. congruence.
      * unfold load_hosts_from_json in H. congruence.
Qed.

Lemma registry_from_document_witness :
  load_hosts_from_data (JDict ∅) world0 = (Ok [], world0)
  /\ exists d l,
      hosts_document = JDict d /\ d !! "hosts"%string = Some (JList l)
      /\ load_hosts_from_json l world0
         = load_hosts_from_data hosts_document world0.
Proof.
  split.
  - destruct (registry_from_document (JDict ∅) world0) as (H & _).
    now apply (H ∅).
  - destruct (registry_from_document hosts_document world0) as (_ & H).
    destruct (load_hosts_from_data hosts_document world0)
      as [[[|mon ms]|e] w'] eqn:E;
      try (vm_compute in E; discriminate).
    destruct (H mon ms w' eq_refl) as (d & l & Hd & Hl & Hr).
    now exists d, l.
Defined.

(** ** Disk and temperature text *)

(** X14: the disk field is [None] exactly when the pattern matches at no
    position of the disk text; and when it matches somewhere the step
    returns, never raises, and the field is the number that the digits of
    a match denote. *)
Theorem disk_none_iff_no_match (df_out : text) (metrics : dict) :
  (parse_disk df_out metrics
   = Ok (<["disk_root_used_pct"%string := VNone]> metrics)
   <-> forall a b g, df_out = a ++ b -> ~ disk_pattern b g)
  /\ (forall a b g,
         df_out = a ++ b -> disk_pattern b g ->
         exists a' b' g',
           df_out = a' ++ b' /\ disk_pattern b' g'
           /\ parse_disk df_out metrics
              = Ok (<["disk_root_used_pct"%string :=
                        VFloat (float_of_decimal false (digits_val g') 0)]>
                      metrics)).
Proof.
  unfold parse_disk. split; [split|].
  - destruct (re_search_disk df_out) as [g|] eqn:E.
    + destruct (re_search_disk_digits _ _ E) as [Ng Sg].
      rewrite (py_float_digits g Ng Sg). cbn [rbind]. intros H.
      apply (f_equal (fun r => match r with
                               | Ok m => m !! "disk_root_used_pct"%string
                               | Raise _ => None
                               end)) in H.
      rewrite !lookup_insert_eq in H. discriminate.
    + intros _ a b g Hs P. apply match_disk_at_spec in P.
      rewrite re_search_disk_none in E. rewrite (E a b Hs) in P.
      discriminate.
  - intros H.
    replace (re_search_disk df_out) with (@None text); [reflexivity|].
    symmetry. apply re_search_disk_none. intros a b E.
    destruct (match_disk_at b) as [g|] eqn:M; [|reflexivity].
    apply match_disk_at_spec in M. now destruct (H a b g E).
  - intros a b g Hs P. apply match_disk_at_spec in P.
    destruct (re_search_disk df_out) as [g'|] eqn:E.
    + destruct (re_search_disk_some _ _ E) as (a' & b' & Es & P' & _).
      destruct (re_search_disk_digits _ _ E) as [Ng Sg].
      rewrite (py_float_digits g' Ng Sg). cbn [rbind].
      now exists a', b', g'.
    + rewrite re_search_disk_none in E. rewrite (E a b Hs) in P.
      discriminate.
Qed.

Lemma drop_while_app_all {A} (p : A -> bool) (a x : list A) :
  all_b p a = true -> drop_while p (a ++ x) = drop_while p x.
Proof.
  induction a as [|c a IH]; [reflexivity|]. cbn. intros H.
  apply andb_true_iff in H as [-> H]. now apply IH.
Qed.

Lemma drop_while_app_tail {A} (p : A -> bool) (s ws : list A) :
  all_b p ws = true ->
  drop_while p (s ++ ws)
  = match drop_while p s with
    | [] => []
    | _ :: _ => drop_while p s ++ ws
    end.
Proof.
  intros H. induction s as [|c s IH]; cbn [app drop_while].
  - rewrite <- (app_nil_r ws). rewrite (drop_while_app_all p ws [] H).
    reflexivity.
  - destruct (p c); [exact IH|reflexivity].
Qed.

(** Whitespace around a text does not change what [strip] leaves. *)
Lemma strip_surrounded (ws1 s ws2 : text) :
  all_b is_space ws1 = true -> all_b is_space ws2 = true ->
  strip (ws1 ++ s ++ ws2) = strip s.
Proof.
  intros H1 H2. unfold strip, strip_with.
  rewrite (drop_while_app_all is_space ws1 _ H1).
  rewrite (drop_while_app_tail is_space s ws2 H2).
  destruct (drop_while is_space s) as [|c u]; [reflexivity|].
  rewrite rev_app_distr.
  rewrite (drop_while_app_all is_space (rev ws2)); [reflexivity|].
  now rewrite all_b_rev.
Qed.

(** X15: whitespace before and after the temperature output, such as the
    newline that ends it, does not change the snapshot. *)
Theorem temperature_output_whitespace
  (df_out free_out loadavg_out temp_out ws1 ws2 : text)
  (self : RemoteMonitor) (w : world) :
  all_b is_space ws1 = true -> all_b is_space ws2 = true ->
  fst (get_metrics
         (fun _ => host_output df_out free_out loadavg_out
                     (ws1 ++ temp_out ++ ws2)) self w)
  = fst (get_metrics
           (fun _ => host_output df_out free_out loadavg_out temp_out)
           self w).
Proof.
  intros H1 H2. rewrite !get_metrics_run. cbn [fst].
  unfold outcome, run_commands, host_output. cbn [on_connect on_exec rbind].
  cbn. now rewrite (strip_surrounded ws1 temp_out ws2 H1 H2).
Qed.

Lemma temperature_output_whitespace_witness :
  fst (get_metrics
         (fun _ => host_output df_example free_example (txt "0.1 0.2 0.3")
                     (txt " " ++ txt "45780" ++ ["010"%char])) pi world0)
  = fst (get_metrics
           (fun _ => host_output df_example free_example (txt "0.1 0.2 0.3")
                       (txt "45780")) pi world0).
Proof.
  apply (temperature_output_whitespace df_example free_example
           (txt "0.1 0.2 0.3") (txt "45780") (txt " ") ["010"%char]
           pi world0); reflexivity.
Defined.

(** ** Sessions over the whole loop *)

Lemma balanced_nil (net : nat -> remote) (a : nat) : balanced net a a [].
Proof.
  intros sid. replace ((a <=? sid) && (sid <? a))%nat with false;
    [reflexivity|].
  symmetry. apply andb_false_iff.
  destruct (Nat.leb_spec a sid); [right; apply Nat.ltb_ge; lia|now left].
Qed.

Lemma balanced_app (net : nat -> remote) (a b c : nat)
  (e1 e2 : list event) :
  (a <= b)%nat -> (b <= c)%nat ->
  balanced net a b e1 -> balanced net b c e2 -> balanced net a c (e1 ++ e2).
Proof.
  intros Hab Hbc B1 B2 sid. rewrite closes_of_app, (B1 sid), (B2 sid).
  destruct (Nat.leb_spec a sid), (Nat.ltb_spec sid b),
    (Nat.leb_spec b sid), (Nat.ltb_spec sid c);
    cbn [andb]; try lia; destruct (on_connect (net sid)); reflexivity.
Qed.

Lemma extends_refl (net : nat -> remote) (w : world) : extends net w w.
Proof.
  exists []. split; [now rewrite app_nil_r|]. split; [lia|].
  apply balanced_nil.
Qed.

Lemma extends_trans (net : nat -> remote) (w1 w2 w3 : world) :
  extends net w1 w2 -> extends net w2 w3 -> extends net w1 w3.
Proof.
  intros (e1 & L1 & A1 & B1) (e2 & L2 & A2 & B2).
  exists (e1 ++ e2). split; [now rewrite L2, L1, app_assoc|].
  split; [lia|]. now apply (balanced_app net _ (attempts w2)).
Qed.

(** Printing and sleeping close nothing. *)
Lemma extends_emit (net : nat -> remote) (ev : event) (w : world) :
  (forall s, ev <> EvClose s) -> extends net w (emit ev w).
Proof.
  intros H. exists [ev]. split; [reflexivity|]. split; [cbn; lia|].
  cbn [emit attempts]. intros sid.
  rewrite <- (balanced_nil net (attempts w) sid).
  destruct ev; try reflexivity. now destruct (H session).
Qed.

Lemma extends_get_metrics (net : nat -> remote) (self : RemoteMonitor)
  (w : world) :
  extends net w (snd (get_metrics net self w)).
Proof.
  rewrite get_metrics_run. cbn [snd].
  exists (attempt_events self (attempts w) (net (attempts w))).
  split; [reflexivity|]. split; [cbn; lia|]. cbn [attempts]. intros sid.
  unfold attempt_events.
  change (EvConnect (attempts w) self :: ?l)
    with ([EvConnect (attempts w) self] ++ l).
  rewrite closes_of_app.
  change (closes_of sid [EvConnect (attempts w) self]) with 0%nat.
  cbn [Nat.add].
  destruct (Nat.eqb_spec (attempts w) sid) as [<-|N].
  - rewrite Nat.leb_refl.
    replace (attempts w <? S (attempts w))%nat with true
      by (symmetry; apply Nat.ltb_lt; lia).
    cbn [andb]. destruct (on_connect (net (attempts w))); [reflexivity|].
    rewrite closes_of_app, closes_of_execs. unfold closes_of. cbn.
    now rewrite Nat.eqb_refl.
  - replace ((attempts w <=? sid) && (sid <? S (attempts w)))%nat
      with false.
    2:{ symmetry. apply andb_false_iff.
        destruct (Nat.leb_spec (attempts w) sid);
          [right; apply Nat.ltb_ge; lia|now left]. }
    destruct (on_connect (net (attempts w))); [reflexivity|].
    rewrite closes_of_app, closes_of_execs. unfold closes_of. cbn.
    now replace (attempts w =? sid)%nat with false
      by (symmetry; now apply Nat.eqb_neq).
Qed.

Lemma extends_poll_hosts (net : nat -> remote)
  (monitors : list RemoteMonitor) (w : world) :
  extends net w (snd (poll_hosts net monitors w)).
Proof.
  revert w. induction monitors as [|mon rest IH]; intros w.
  - apply extends_refl.
  - cbn [poll_hosts]. unfold mbind.
    pose proof (extends_get_metrics net mon w) as G.
    destruct (get_metrics net mon w) as [[m|e] w1]; cbn [snd] in *;
      [|exact G].
    unfold tell.
    apply (extends_trans net w w1); [exact G|].
    apply (extends_trans net w1
             (emit (EvPrintHost (label mon) (hostname mon) m) w1)).
    + now apply extends_emit.
    + apply IH.
Qed.

Lemma extends_poll_cycle (net : nat -> remote)
  (monitors : list RemoteMonitor) (w : world) :
  extends net w (snd (poll_cycle net monitors w)).
Proof.
  unfold poll_cycle, mbind, tell.
  pose proof (extends_poll_hosts net monitors (emit EvPrintHeader w)) as P.
  assert (H : extends net w (emit EvPrintHeader w))
    by now apply extends_emit.
  destruct (poll_hosts net monitors (emit EvPrintHeader w)) as [[[]|e] w1];
    cbn [snd] in *.
  - apply (extends_trans net w w1).
    + now apply (extends_trans net w (emit EvPrintHeader w)).
    + now apply extends_emit.
  - now apply (extends_trans net w (emit EvPrintHeader w)).
Qed.

Lemma extends_main_loop (net : nat -> remote) (n : nat)
  (monitors : list RemoteMonitor) (w : world) :
  extends net w (snd (main_loop net n monitors w)).
Proof.
  revert w. induction n as [|n IH]; intros w; [apply extends_refl|].
  cbn [main_loop]. unfold mbind.
  pose proof (extends_poll_cycle net monitors w) as C.
  destruct (poll_cycle net monitors w) as [[[]|e] w1]; cbn [snd] in *;
    [|exact C].
  apply (extends_trans net w w1); [exact C|apply IH].
Qed.

(** X16: no session is left open and none is closed twice: over any
    number of cycles, whatever the hosts do and also when the loop is
    ended by an exception, each attempt made whose connection succeeded has
    its session closed exactly once, and no other session is ever
    closed. *)
Theorem every_session_closed_once (net : nat -> remote) (n : nat)
  (monitors : list RemoteMonitor) (w : world) :
  exists evs,
    log (snd (main_loop net n monitors w)) = log w ++ evs
    /\ (attempts w <= attempts (snd (main_loop net n monitors w)))%nat
    /\ forall sid,
        closes_of sid evs
        = if ((attempts w <=? sid)
              && (sid <? attempts (snd (main_loop net n monitors w))))%nat
          then match on_connect (net sid) with
               | None => 1%nat
               | Some _ => 0%nat
               end
          else 0%nat.
Proof. exact (extends_main_loop net n monitors w). Qed.

(** ** Cycles *)

Lemma count_ev_app (p : event -> bool) (e1 e2 : list event) :
  count_ev p (e1 ++ e2) = (count_ev p e1 + count_ev p e2)%nat.
Proof. unfold count_ev. now rewrite List.filter_app, length_app. Qed.

Lemma count_ev_execs (p : event -> bool) (sid : nat) (cmds : list string) :
  (forall cmd, p (EvExec sid cmd) = false) ->
  count_ev p (map (EvExec sid) cmds) = 0%nat.
Proof.
  intros H. induction cmds as [|c cmds IH]; [reflexivity|].
  unfold count_ev in *. cbn. now rewrite H.
Qed.

Lemma count_connect_attempt (mon : RemoteMonitor) (a : nat) (r : remote) :
  count_ev is_connect (attempt_events mon a r) = 1%nat.
Proof.
  unfold attempt_events. destruct (on_connect r); [reflexivity|].
  change (EvConnect a mon :: ?l) with ([EvConnect a mon] ++ l).
  rewrite !count_ev_app, count_ev_execs; reflexivity.
Qed.

Lemma count_other_attempt (p : event -> bool) (mon : RemoteMonitor)
  (a : nat) (r : remote) :
  p (EvConnect a mon) = false -> (forall cmd, p (EvExec a cmd) = false) ->
  p (EvClose a) = false ->
  count_ev p (attempt_events mon a r) = 0%nat.
Proof.
  intros H1 H2 H3. unfold attempt_events.
  change (EvConnect a mon :: ?l) with ([EvConnect a mon] ++ l).
  rewrite count_ev_app. unfold count_ev at 1. cbn. rewrite H1. cbn.
  destruct (on_connect r); [reflexivity|].
  rewrite count_ev_app, (count_ev_execs p a _ H2).
  unfold count_ev. cbn. now rewrite H3.
Qed.

Lemma count_hosts_events (net : nat -> remote) (a : nat)
  (monitors : list RemoteMonitor) :
  count_ev is_connect (hosts_events net a monitors) = length monitors
  /\ count_ev is_print_host (hosts_events net a monitors) = length monitors
  /\ count_ev is_header (hosts_events net a monitors) = 0%nat
  /\ count_ev is_sleep_1 (hosts_events net a monitors) = 0%nat.
Proof.
  revert a. induction monitors as [|mon rest IH]; intros a;
    [now repeat split|].
  destruct (IH (S a)) as (I1 & I2 & I3 & I4).
  cbn [hosts_events length].
  change (EvPrintHost ?l ?h ?m :: ?t) with ([EvPrintHost l h m] ++ t).
  rewrite !count_ev_app, count_connect_attempt, I1, I2, I3, I4.
  rewrite !count_other_attempt by reflexivity.
  now repeat split.
Qed.

Lemma names_printed_hosts (net : nat -> remote) (a : nat)
  (monitors : list RemoteMonitor) :
  map fst (printed (hosts_events net a monitors)) = map name_of monitors.
Proof.
  rewrite printed_hosts.
  change (map fst ?l) with (fst <$> l). rewrite fmap_imap.
  apply (imap_const name_of).
Qed.

(** [n] cycles in which every attempt returns a snapshot. *)
Lemma main_loop_run (net : nat -> remote) (n : nat)
  (monitors : list RemoteMonitor) (w : world) :
  (forall i, (i < n * length monitors)%nat ->
             returns (net (attempts w + i)%nat)) ->
  exists evs,
    main_loop net n monitors w
    = (Ok tt, {| attempts := attempts w + n * length monitors;
                 log := log w ++ evs |})
    /\ count_ev is_header evs = n
    /\ count_ev is_sleep_1 evs = n
    /\ count_ev is_connect evs = (n * length monitors)%nat
    /\ map fst (printed evs) = concat (replicate n (map name_of monitors)).
Proof.
  revert w. induction n as [|n IH]; intros w H.
  - exists []. cbn. unfold mret. destruct w. cbn.
    now rewrite Nat.add_0_r, app_nil_r.
  - cbn [main_loop]. unfold mbind.
    rewrite (poll_cycle_run net monitors w)
      by (intros i Hi; apply H; lia).
    destruct (IH {| attempts := attempts w + length monitors;
                    log := log w ++ EvPrintHeader
                           :: hosts_events net (attempts w) monitors
                           ++ [EvSleep 1] |})
      as (evs & E & C1 & C2 & C3 & C4).
    { intros i Hi. cbn [attempts].
      replace (attempts w + length monitors + i)%nat
        with (attempts w + (length monitors + i))%nat by lia.
      apply H. lia. }
    rewrite E. cbn [attempts log].
    destruct (count_hosts_events net (attempts w) monitors)
      as (K1 & K2 & K3 & K4).
    exists ((EvPrintHeader :: hosts_events net (attempts w) monitors
             ++ [EvSleep 1]) ++ evs).
    split; [f_equal; f_equal; [lia|now rewrite <- app_assoc]|].
    change (EvPrintHeader :: ?l) with ([EvPrintHeader] ++ l).
    rewrite !count_ev_app, !printed_app, !map_app, names_printed_hosts.
    rewrite K1, K3, K4, C1, C2, C3, C4.
    repeat split; cbn; try lia. now rewrite app_nil_r.
Qed.

(** X17: in [n] cycles over [N] monitors in which no attempt is ended by
    an exception outside [Exception], the loop prints [n] headers and
    sleeps [n] times one second, makes [n * N] connection attempts, and
    prints [n * N] snapshot lines: the registry in its order, [n] times
    over. *)
Theorem cycles_accounting (net : nat -> remote) (n : nat)
  (monitors : list RemoteMonitor) (w : world) :
  (forall i, (i < n * length monitors)%nat ->
             returns (net (attempts w + i)%nat)) ->
  exists evs,
    main_loop net n monitors w
    = (Ok tt, {| attempts := attempts w + n * length monitors;
                 log := log w ++ evs |})
    /\ count_ev is_header evs = n
    /\ count_ev is_sleep_1 evs = n
    /\ count_ev is_connect evs = (n * length monitors)%nat
    /\ map fst (printed evs) = concat (replicate n (map name_of monitors)).
Proof. apply main_loop_run. Qed.

Lemma flaky_net_returns (a : nat) : returns (flaky_net a).
Proof.
  unfold flaky_net. destruct ((a mod 3 =? 1) && (a <? 6))%nat.
  - eexists.
    exact (down_outcome
             (host_down (OtherException "TimeoutError" (txt "timed out")))
             _ eq_refl eq_refl).
  - pose proof (flaky_net_healthy 0 eq_refl) as H.
    apply healthy_outcome in H as (m & H & _). now exists m.
Qed.

Lemma cycles_accounting_witness :
  exists evs,
    main_loop flaky_net 3 fleet world0
    = (Ok tt, {| attempts := attempts world0 + 3 * length fleet;
                 log := log world0 ++ evs |})
    /\ count_ev is_header evs = 3%nat
    /\ count_ev is_sleep_1 evs = 3%nat
    /\ count_ev is_connect evs = (3 * length fleet)%nat
    /\ map fst (printed evs) = concat (replicate 3 (map name_of fleet)).
Proof.
  apply (cycles_accounting flaky_net 3 fleet world0).
  intros i _. apply flaky_net_returns.
Defined.

(** The loop over a list of monitors is the loop over its first part
    followed by the loop over the rest. *)
Lemma poll_hosts_app (net : nat -> remote) (a b : list RemoteMonitor)
  (w : world) :
  poll_hosts net (a ++ b) w
  = mbind (poll_hosts net a) (fun _ => poll_hosts net b) w.
Proof.
  revert w. induction a as [|mon a IH]; intros w; [reflexivity|].
  cbn [app poll_hosts]. unfold mbind.
  destruct (get_metrics net mon w) as [[m|e] w1]; [|reflexivity].
  unfold tell. rewrite IH. reflexivity.
Qed.

(** X18: an exception outside [Exception] (a key interrupt, say) ends the
    whole loop at once. If the hosts before monitor [mon] gave their
    snapshots and the first failure of the attempt on [mon] is such an
    exception [e], the loop raises [e]: the snapshots of the hosts before
    were printed, nothing is printed for [mon], the monitors after it are
    not contacted, there is no sleep and no further cycle. *)
Theorem interrupt_ends_the_loop (net : nat -> remote)
  (pre : list RemoteMonitor) (mon : RemoteMonitor)
  (rest : list RemoteMonitor) (n : nat) (w : world) (e : exn) :
  (forall i, (i < length pre)%nat -> returns (net (attempts w + i)%nat)) ->
  first_failure (net (attempts w + length pre)%nat) = Some e ->
  is_Exception e = false ->
  main_loop net (S n) (pre ++ mon :: rest) w
  = (Raise e,
     {| attempts := S (attempts w + length pre);
        log := log w
               ++ EvPrintHeader
                  :: hosts_events net (attempts w) pre
                  ++ attempt_events mon (attempts w + length pre)
                       (net (attempts w + length pre)%nat) |}).
Proof.
  intros Hpre Hf He. cbn [main_loop]. unfold mbind at 1.
  unfold poll_cycle. unfold mbind at 1. unfold tell at 1.
  unfold mbind at 1. rewrite poll_hosts_app. unfold mbind at 1.
  rewrite (poll_hosts_run net pre (emit EvPrintHeader w))
    by (intros i Hi; now apply Hpre).
  cbn [poll_hosts]. unfold mbind at 1. rewrite get_metrics_run.
  cbn [attempts log emit].
  rewrite (outcome_first_failure _ e Hf), He.
  now rewrite <- !app_assoc.
Qed.

Lemma interrupt_ends_the_loop_witness :
  main_loop (fun a => if (a =? 1)%nat then host_interrupted
                      else flaky_net 0)
    (S 4) ([pi] ++ pi :: [pi]) world0
  = (Raise interrupt,
     {| attempts := S (attempts world0 + length [pi]);
        log := log world0
               ++ EvPrintHeader
                  :: hosts_events
                       (fun a => if (a =? 1)%nat then host_interrupted
                                 else flaky_net 0)
                       (attempts world0) [pi]
                  ++ attempt_events pi (attempts world0 + length [pi])
                       host_interrupted |}).
Proof.
  apply (interrupt_ends_the_loop
           (fun a => if (a =? 1)%nat then host_interrupted else flaky_net 0)
           [pi] pi [pi] 4 world0 interrupt).
  - intros i Hi. cbn in Hi. replace i with 0%nat by lia.
    apply flaky_net_returns.
  - reflexivity.
  - reflexivity.
Defined.

(** ** [main] *)

(** X19: [main] polls the valid entries and only them. When the document
    is an object whose ["hosts"] is a list of objects, [main] first prints
    a warning for each invalid entry, then in each cycle contacts the
    monitors of the valid entries in the order of the list; with no
    exception outside [Exception], [n] cycles make [n] times as many
    connection attempts as there are valid entries. *)
Theorem main_polls_the_valid_entries (net : nat -> remote)
  (d : gmap string json) (entries : list (gmap string json)) (n : nat)
  (w : world) :
  d !! "hosts"%string = Some (JList (map JDict entries)) ->
  (forall i, (i < n * length (List.filter entry_valid entries))%nat ->
             returns (net (attempts w + i)%nat)) ->
  exists evs,
    main net (JDict d) n w
    = (Ok tt,
       {| attempts :=
            attempts w + n * length (List.filter entry_valid entries);
          log := log w
                 ++ map (fun d => EvPrintWarning (JDict d))
                      (List.filter (fun d => negb (entry_valid d)) entries)
                 ++ evs |})
    /\ count_ev is_connect evs
       = (n * length (List.filter entry_valid entries))%nat
    /\ map fst (printed evs)
       = concat (replicate n
                   (map (fun d => name_of (monitor_of d))
                      (List.filter entry_valid entries))).
Proof.
  intros Hd Hr. unfold main, load_hosts_from_data.
  unfold mbind at 1 2 3. unfold lift, get_default. rewrite Hd.
  cbn [iterate]. unfold load_hosts_from_json. rewrite load_hosts_run.
  cbn [app].
  destruct (main_loop_run net n
              (map monitor_of (List.filter entry_valid entries))
              {| attempts := attempts w;
                 log := log w
                        ++ map (fun d => EvPrintWarning (JDict d))
                             (List.filter (fun d => negb (entry_valid d))
                                entries) |})
    as (evs & E & _ & _ & C & P).
  { rewrite length_map. exact Hr. }
  rewrite length_map in E, C. exists evs.
  split; [rewrite E; cbn [attempts log]; now rewrite <- app_assoc|].
  split; [exact C|]. rewrite P. now rewrite map_map.
Qed.

Lemma main_polls_the_valid_entries_witness :
  exists evs,
    main flaky_net hosts_document 2 world0
    = (Ok tt,
       {| attempts := 4;
          log := [EvPrintWarning
                    (JDict (<["hostname"%string := JStr "10.0.0.8"]> ∅))]
                 ++ evs |})
    /\ count_ev is_connect evs = 4%nat
    /\ map fst (printed evs)
       = [(JStr "10.0.0.7", JStr "10.0.0.7"); (JStr "rack-3", JStr "10.0.0.9");
          (JStr "10.0.0.7", JStr "10.0.0.7"); (JStr "rack-3", JStr "10.0.0.9")].
Proof.
  destruct (main_polls_the_valid_entries flaky_net
              (<["hosts"%string :=
                  JList (map JDict
                    [<["hostname"%string := JStr "10.0.0.7"]>
                       (<["username"%string := JStr "pi"]> ∅);
                     <["hostname"%string := JStr "10.0.0.8"]> ∅;
                     <["hostname"%string := JStr "10.0.0.9"]>
                       (<["username"%string := JStr "admin"]>
                          (<["port"%string := JNull]>
                             (<["label"%string := JStr "rack-3"]> ∅)))])]>
                 ∅)
              [<["hostname"%string := JStr "10.0.0.7"]>
                 (<["username"%string := JStr "pi"]> ∅);
               <["hostname"%string := JStr "10.0.0.8"]> ∅;
               <["hostname"%string := JStr "10.0.0.9"]>
                 (<["username"%string := JStr "admin"]>
                    (<["port"%string := JNull]>
                       (<["label"%string := JStr "rack-3"]> ∅)))]
              2 world0) as (evs & E & C & P).
  - reflexivity.
  - intros i _. apply flaky_net_returns.
  - exists evs. split; [exact E|]. split; [exact C|exact P].
Defined.

(** X20: an entry that is not a JSON object is fatal to [main]: it raises
    [AttributeError] while loading the registry, before the first cycle;
    no host is contacted, whatever the other entries are. *)
Theorem malformed_entry_is_fatal (net : nat -> remote)
  (d : gmap string json) (entries : list (gmap string json)) (h : json)
  (rest : list json) (n : nat) (w : world) :
  d !! "hosts"%string = Some (JList (map JDict entries ++ h :: rest)) ->
  is_object h = false ->
  main net (JDict d) n w
  = (Raise (OtherException "AttributeError"
              (txt "'" ++ txt (type_name h)
               ++ txt "' object has no attribute 'get'")),
     {| attempts := attempts w;
        log := log w
               ++ map (fun d => EvPrintWarning (JDict d))
                    (List.filter (fun d => negb (entry_valid d)) entries) |}).
Proof.
  intros Hd Hh. unfold main, load_hosts_from_data.
  unfold mbind at 1 2 3. unfold lift, get_default. rewrite Hd.
  cbn [iterate]. unfold load_hosts_from_json.
  rewrite load_hosts_app. unfold mbind. rewrite load_hosts_run.
  now rewrite load_hosts_other.
Qed.

Lemma malformed_entry_is_fatal_witness :
  main flaky_net
    (JDict (<["hosts"%string :=
               JList (map JDict [unnamed_entry] ++ JInt 7 :: [])]> ∅))
    5 world0
  = (Raise (OtherException "AttributeError"
              (txt "'" ++ txt (type_name (JInt 7))
               ++ txt "' object has no attribute 'get'")),
     {| attempts := attempts world0;
        log := log world0
               ++ map (fun d => EvPrintWarning (JDict d))
                    (List.filter (fun d => negb (entry_valid d))
                       [unnamed_entry]) |}).
Proof.
  apply (malformed_entry_is_fatal flaky_net
           (<["hosts"%string :=
               JList (map JDict [unnamed_entry] ++ JInt 7 :: [])]> ∅)
           [unnamed_entry] (JInt 7) [] 5 world0); reflexivity.
Defined.
